(** * The tabular result aggregator of the hydrology notebook

    The notebook cell under study turns the text printed by [r.univar]
    into a column table:
<<
    separator = "|"
    columns = defaultdict(list)
    text = gs.read_command("r.univar", ..., separator=separator, flags="t")
    reader = csv.DictReader(text.splitlines(), delimiter=separator)
    for row in reader:
        for (k,v) in row.items():
            columns[k].append(v)
    watersheds = columns["zone"]
    means = np.array(columns["mean"], dtype=np.float32)
    stddevs = np.array(columns["stddev"], dtype=np.float32)
>>
    The cell is a few lines of glue around [str.splitlines], [csv.reader]
    (the parser of CPython's [_csv] module, here with the [excel] dialect
    and the caller's delimiter), [csv.DictReader], [collections.defaultdict]
    and [numpy.array].  Each of them is embedded below as a function, the
    cell on top of them, with exceptions made explicit.  Characters are the
    256 code points of [ascii]; the notebook records Python 3.8.10. *)

From Stdlib Require Import Ascii String NArith List Lia.
From stdpp Require Import base option list gmap strings.


(** ** Characters and strings *)

Definition NUL : ascii := "000"%char.
Definition LF : ascii := "010"%char.
Definition CR : ascii := "013"%char.
Definition DQUOTE : ascii := "034"%char.

(** The characters at which [str.splitlines] breaks a line: LF, VT, FF,
    CR, FS, GS, RS and NEL. *)
Definition is_linebreak (c : ascii) : bool :=
  match N_of_ascii c with
  | 10 | 11 | 12 | 13 | 28 | 29 | 30 | 133 => true
  | _ => false
  end%N.

(** [str.splitlines()], as the scanning loop of CPython: [cur] holds the
    characters of the line being scanned, latest first; [after_cr] tells
    that the previous character was a CR, so that a LF right after it
    belongs to the same line break. A line is emitted at each break, and at
    the end of the text when characters are pending. *)
Fixpoint splitlines_scan (after_cr : bool) (cur : string) (s : string)
  : list string :=
  match s with
  | EmptyString =>
      match cur with EmptyString => [] | _ => [String.rev cur] end
  | String c s' =>
      if after_cr && Ascii.eqb c LF then splitlines_scan false cur s'
      else if is_linebreak c
           then String.rev cur :: splitlines_scan (Ascii.eqb c CR) "" s'
           else splitlines_scan false (String c cur) s'
  end.

Definition splitlines (s : string) : list string := splitlines_scan false "" s.

(** [sep.join(l)] for a one-character [sep]. *)
Definition join (sep : ascii) (l : list string) : string :=
  String.concat (String sep "") l.

(** [s.split(sep)] for a one-character [sep]: the pieces of [s] between the
    occurrences of [sep]. This is how the specification reads a line's
    fields; the code reads them with [csv.reader] instead. *)
Fixpoint split (sep : ascii) (s : string) : list string :=
  match s with
  | EmptyString => [""]
  | String c s' =>
      if Ascii.eqb c sep then "" :: split sep s'
      else match split sep s' with
           | f :: fs => String c f :: fs
           | [] => [String c ""]
           end
  end.

Fixpoint contains (c : ascii) (s : string) : bool :=
  match s with
  | EmptyString => false
  | String c' s' => Ascii.eqb c' c || contains c s'
  end.

(** ** Exceptions and iterators *)

Inductive exception :=
| csv_Error_line_contains_NULL_byte
| csv_Error_field_larger_than_field_limit
| csv_Error_new_line_character_seen_in_unquoted_field
| TypeError_delimiter_must_be_a_1_character_string
| ValueError_could_not_convert_string_to_float (raw : string)
| ValueError_setting_an_array_element_with_a_sequence.

Inductive result (A : Type) :=
| Ok (a : A)
| Err (e : exception).
Arguments Ok {A} a.
Arguments Err {A} e.

(** Exceptions propagate: [x ← m; k] runs [k] on the value of [m], and
    raises what [m] raises. *)
Global Instance result_bind : MBind result := λ A B k m,
  match m with Ok a => k a | Err e => Err e end.

(** What a Python iterator over a finite input does when it is driven to
    its end: it yields values, and then either stops ([StopIteration]) or
    raises. *)
Inductive iterator (A : Type) :=
| StopIteration
| Raise (e : exception)
| Yield (a : A) (rest : iterator A).
Arguments StopIteration {A}.
Arguments Raise {A} e.
Arguments Yield {A} a rest.

(** What an iterator yields, and the exception that ends it, if any. *)
Fixpoint items {A : Type} (it : iterator A) : list A :=
  match it with
  | Yield a rest => a :: items rest
  | _ => []
  end.

Fixpoint raised {A : Type} (it : iterator A) : option exception :=
  match it with
  | StopIteration => None
  | Raise e => Some e
  | Yield _ rest => raised rest
  end.

(** The iterator that yields the elements of a list and stops. *)
Definition yields {A : Type} (l : list A) : iterator A :=
  foldr Yield StopIteration l.

(** ** [csv.reader]: the parser of [_csv.c] *)

(** The parser's states. The [excel] dialect has no escape character, so
    the three escape states of [_csv.c] are never entered and are left out. *)
Inductive ParserState :=
| START_RECORD | START_FIELD | IN_FIELD | IN_QUOTED_FIELD
| QUOTE_IN_QUOTED_FIELD | EAT_CRNL.

(** [csv.field_size_limit()], which the notebook leaves at its default. *)
Definition field_limit : N := 131072.

(** The reader object: the fields of the record being read, the buffer of
    the field being read ([field], latest character first) and the number
    of characters in it. *)
Record ReaderObj := mkReader {
  state : ParserState;
  fields : list string;
  field : string;
  field_len : N
}.

Definition set_state (self : ReaderObj) (st : ParserState) : ReaderObj :=
  mkReader st (fields self) (field self) (field_len self).

Definition parse_save_field (self : ReaderObj) : ReaderObj :=
  mkReader (state self) (fields self ++ [String.rev (field self)]) "" 0.

Definition parse_add_char (self : ReaderObj) (c : ascii) : result ReaderObj :=
  if (field_limit <=? field_len self)%N
  then Err csv_Error_field_larger_than_field_limit
  else Ok (mkReader (state self) (fields self) (String c (field self))
                    (N.succ (field_len self))).

(** [parse_reset] starts a new record; it leaves the field buffer alone. *)
Definition parse_reset (self : ReaderObj) : ReaderObj :=
  mkReader START_RECORD [] (field self) (field_len self).

Definition new_reader : ReaderObj := mkReader START_RECORD [] "" 0.

Definition is_eol (c : ascii) : bool :=
  Ascii.eqb c LF || Ascii.eqb c CR || Ascii.eqb c NUL.

Definition after_eol (c : ascii) : ParserState :=
  if Ascii.eqb c NUL then START_RECORD else EAT_CRNL.

(** The case [START_FIELD] of [parse_process_char], which the case
    [START_RECORD] falls through to. *)
Definition start_field (delimiter : ascii) (self : ReaderObj) (c : ascii)
  : result ReaderObj :=
  if is_eol c then Ok (set_state (parse_save_field self) (after_eol c))
  else if Ascii.eqb c DQUOTE then Ok (set_state self IN_QUOTED_FIELD)
  else if Ascii.eqb c delimiter then Ok (parse_save_field self)
  else self' ← parse_add_char self c ; Ok (set_state self' IN_FIELD).

(** One step of the parser. The character NUL stands for the end of a
    line: the reader feeds it after the characters of each line.
    Dialect [excel]: the double quote as quote character, [doublequote],
    not [strict], no [skipinitialspace], no escape character. *)
Definition parse_process_char (delimiter : ascii) (self : ReaderObj) (c : ascii)
  : result ReaderObj :=
  match state self with
  | START_RECORD =>
      if Ascii.eqb c NUL then Ok self
      else if Ascii.eqb c LF || Ascii.eqb c CR then Ok (set_state self EAT_CRNL)
      else start_field delimiter (set_state self START_FIELD) c
  | START_FIELD => start_field delimiter self c
  | IN_FIELD =>
      if is_eol c then Ok (set_state (parse_save_field self) (after_eol c))
      else if Ascii.eqb c delimiter
           then Ok (set_state (parse_save_field self) START_FIELD)
           else parse_add_char self c
  | IN_QUOTED_FIELD =>
      if Ascii.eqb c NUL then Ok self
      else if Ascii.eqb c DQUOTE then Ok (set_state self QUOTE_IN_QUOTED_FIELD)
      else parse_add_char self c
  | QUOTE_IN_QUOTED_FIELD =>
      if Ascii.eqb c DQUOTE
      then self' ← parse_add_char self c ; Ok (set_state self' IN_QUOTED_FIELD)
      else if Ascii.eqb c delimiter
           then Ok (set_state (parse_save_field self) START_FIELD)
           else if is_eol c
                then Ok (set_state (parse_save_field self) (after_eol c))
                else self' ← parse_add_char self c ; Ok (set_state self' IN_FIELD)
  | EAT_CRNL =>
      if Ascii.eqb c LF || Ascii.eqb c CR then Ok self
      else if Ascii.eqb c NUL then Ok (set_state self START_RECORD)
      else Err csv_Error_new_line_character_seen_in_unquoted_field
  end.

(** The characters of one line, then the end-of-line step. A NUL inside
    the line is an error in this version of Python. *)
Fixpoint parse_line (delimiter : ascii) (self : ReaderObj) (line : string)
  : result ReaderObj :=
  match line with
  | EmptyString => parse_process_char delimiter self NUL
  | String c line' =>
      if Ascii.eqb c NUL then Err csv_Error_line_contains_NULL_byte
      else self' ← parse_process_char delimiter self c ;
           parse_line delimiter self' line'
  end.

Definition pending (self : ReaderObj) : bool :=
  negb (field_len self =? 0)%N ||
  match state self with IN_QUOTED_FIELD => true | _ => false end.

(** [Reader_iternext], called until the input is exhausted: lines are fed
    to the parser until it is back in [START_RECORD], which completes a
    record; at the end of the input a record that is under way is
    completed as it stands. *)
Fixpoint Reader_iter (delimiter : ascii) (self : ReaderObj) (lines : list string)
  : iterator (list string) :=
  match lines with
  | [] =>
      if pending self then Yield (fields (parse_save_field self)) StopIteration
      else StopIteration
  | line :: lines' =>
      match parse_line delimiter self line with
      | Err e => Raise e
      | Ok self' =>
          match state self' with
          | START_RECORD =>
              Yield (fields self')
                    (Reader_iter delimiter (parse_reset self') lines')
          | _ => Reader_iter delimiter self' lines'
          end
      end
  end.

(** [csv.reader(lines, delimiter=delimiter)]; the dialect refuses a
    delimiter that is NUL when the reader is created. *)
Definition csv_reader (delimiter : ascii) (lines : list string)
  : result (iterator (list string)) :=
  if Ascii.eqb delimiter NUL
  then Err TypeError_delimiter_must_be_a_1_character_string
  else Ok (Reader_iter delimiter (parse_reset new_reader) lines).

(** ** [csv.DictReader] *)

(** A row's keys are field names, and [None], the reader's [restkey];
    its values are strings, [None] (the reader's [restval]) and, under
    [restkey], the list of the row's surplus values. *)
Abbreviation key := (option string).

Inductive value :=
| VStr (s : string)
| VNone
| VList (l : list string).

Global Instance value_eq_dec : EqDecision value.
Proof. solve_decision. Defined.

(** A Python [dict], in insertion order: assigning to a key that is
    present replaces its value in place. *)
Abbreviation dict := (list (key * value)).

Fixpoint dict_set (k : key) (v : value) (d : dict) : dict :=
  match d with
  | [] => [(k, v)]
  | (k', v') :: d' =>
      if decide (k' = k) then (k, v) :: d' else (k', v') :: dict_set k v d'
  end.

Fixpoint dict_get (k : key) (d : dict) : option value :=
  match d with
  | [] => None
  | (k', v') :: d' => if decide (k' = k) then Some v' else dict_get k d'
  end.

(** The body of [DictReader.__next__] after a non-empty [row] was read:
<<
    d = dict(zip(self.fieldnames, row))
    lf = len(self.fieldnames)
    lr = len(row)
    if lf < lr:
        d[self.restkey] = row[lf:]
    elif lf > lr:
        for key in self.fieldnames[lr:]:
            d[key] = self.restval
>> *)
Definition DictReader_row (fieldnames row : list string) : dict :=
  let d := foldl (λ d kv, dict_set (Some kv.1) (VStr kv.2) d) []
                 (zip fieldnames row) in
  let lf := length fieldnames in
  let lr := length row in
  if (lf <? lr)%nat then dict_set None (VList (drop lf row)) d
  else if (lr <? lf)%nat
       then foldl (λ d k, dict_set (Some k) VNone d) d (drop lr fieldnames)
       else d.

(** The rows after the header: empty records are skipped
    ([while row == []: row = next(self.reader)]). *)
Fixpoint DictReader_rows (fieldnames : list string) (it : iterator (list string))
  : iterator dict :=
  match it with
  | StopIteration => StopIteration
  | Raise e => Raise e
  | Yield [] rest => DictReader_rows fieldnames rest
  | Yield row rest =>
      Yield (DictReader_row fieldnames row) (DictReader_rows fieldnames rest)
  end.

(** The first record of the reader, whatever it is, gives the field names;
    without one there are no rows. *)
Definition DictReader (it : iterator (list string)) : iterator dict :=
  match it with
  | StopIteration => StopIteration
  | Raise e => Raise e
  | Yield fieldnames rest => DictReader_rows fieldnames rest
  end.

(** ** The column table: [defaultdict(list)] *)

Abbreviation table := (gmap key (list value)).

(** [columns[k]]: a missing key is first bound to a new empty list. *)
Definition getitem (k : key) (columns : table) : list value * table :=
  match columns !! k with
  | Some l => (l, columns)
  | None => ([], <[k := []]> columns)
  end.

(** [columns[k].append(v)] *)
Definition append_item (columns : table) (kv : key * value) : table :=
  let (l, columns') := getitem kv.1 columns in
  <[kv.1 := l ++ [kv.2]]> columns'.

(** [for (k,v) in row.items(): columns[k].append(v)] *)
Definition add_row (columns : table) (row : dict) : table :=
  foldl append_item columns row.

(** A [for] loop over an iterator, threading the state the body updates;
    an exception of the iterator ends the loop and leaves the state as the
    last complete iteration left it. *)
Fixpoint for_each {A S : Type} (body : S → A → S) (it : iterator A) (s : S)
  : S * option exception :=
  match it with
  | StopIteration => (s, None)
  | Raise e => (s, Some e)
  | Yield a rest => for_each body rest (body s a)
  end.

(** ** The aggregator

    The table-building lines of the cell, as a function of the delimiter
    and the text: the contents of [columns] when they are done, and the
    exception that ended them, if any. *)
Definition aggregate (separator : ascii) (text : string)
  : table * option exception :=
  let columns : table := ∅ in
  match csv_reader separator (splitlines text) with
  | Err e => (columns, Some e)
  | Ok reader => for_each add_row (DictReader reader) columns
  end.

(** The sequence a lookup of [k] reads in a table, without binding it. *)
Definition column (columns : table) (k : key) : list value :=
  match columns !! k with Some l => l | None => [] end.

(** The records [csv.reader] yields from the lines of a text, and the
    exception that ends it, if any. *)
Definition records (separator : ascii) (text : string)
  : list (list string) * option exception :=
  match csv_reader separator (splitlines text) with
  | Err e => ([], Some e)
  | Ok reader => (items reader, raised reader)
  end.

(** [reader.fieldnames]: the first record, if there is one. *)
Definition fieldnames (separator : ascii) (text : string) : list string :=
  match (records separator text).1 with
  | names :: _ => names
  | [] => []
  end.

(** The table built from the records that follow the header. *)
Definition table_of (names : list string) (recs : list (list string)) : table :=
  foldl add_row ∅ (DictReader_row names <$> filter (λ r, r ≠ []) recs).

(** ** Numeric conversion and the whole cell *)

Section Cell.

(** [numpy]'s [float32] numbers and its parsing of a string into one
    (that of Python's [float()]) are taken as given. *)
Context {float32 : Type} (nan : float32) (float : string → option float32).

Definition is_list (v : value) : bool :=
  match v with VList _ => true | _ => false end.

Definition FLOAT_setitem (v : value) : result float32 :=
  match v with
  | VNone => Ok nan
  | VStr s =>
      match float s with
      | Some x => Ok x
      | None => Err (ValueError_could_not_convert_string_to_float s)
      end
  | VList _ => Err ValueError_setting_an_array_element_with_a_sequence
  end.

Fixpoint convert_items (l : list value) : result (list float32) :=
  match l with
  | [] => Ok []
  | v :: l' => x ← FLOAT_setitem v; xs ← convert_items l'; Ok (x :: xs)
  end.

(** [np.array(l, dtype=np.float32)] for a flat list [l] of strings and
    [None]: each item is converted in turn, [None] to NaN. A list among
    the items makes numpy look for a second dimension; no column under a
    field name holds one, and the model raises numpy's [ValueError] there. *)
Definition np_array_float32 (l : list value) : result (list float32) :=
  if existsb is_list l
  then Err ValueError_setting_an_array_element_with_a_sequence
  else convert_items l.

(** The variables of the kernel that the cell binds to data. *)
Record kernel := mkKernel {
  columns : table;
  watersheds : list value;
  means : list float32;
  stddevs : list float32
}.

(** The table-building lines of the cell, run in a kernel [k]: they bind
    [columns], and nothing else that holds data. *)
Definition aggregator (separator : ascii) (text : string) (k : kernel)
  : kernel * option exception :=
  let (cols, e) := aggregate separator text in
  (mkKernel cols (watersheds k) (means k) (stddevs k), e).

(** The three lines after the loop; an exception leaves the variables
    bound so far, and the others as they were. *)
Definition conversion (k : kernel) : kernel * option exception :=
  let (zone, cols) := getitem (Some "zone") (columns k) in
  let (mean, cols) := getitem (Some "mean") cols in
  match np_array_float32 mean with
  | Err e => (mkKernel cols zone (means k) (stddevs k), Some e)
  | Ok means' =>
      let (stddev, cols) := getitem (Some "stddev") cols in
      match np_array_float32 stddev with
      | Err e => (mkKernel cols zone means' (stddevs k), Some e)
      | Ok stddevs' => (mkKernel cols zone means' stddevs', None)
      end
  end.

(** The whole cell. *)
Definition cell (separator : ascii) (text : string) (k : kernel)
  : kernel * option exception :=
  match aggregator separator text k with
  | (k', Some e) => (k', Some e)
  | (k', None) => conversion k'
  end.

End Cell.

(** An instance of the numbers and of the parsing, to run the conversion
    on examples: the numbers are NaN and the plain decimal literals (digits,
    then possibly a point and digits), kept as they are written. Python's
    [float()] accepts every string this parser accepts, and more; like this
    parser it refuses a string of letters such as [abc]. *)
Module Decimal.

Inductive number :=
| NaN
| Lit (literal : string).

Definition is_digit (c : ascii) : bool :=
  (48 <=? N_of_ascii c)%N && (N_of_ascii c <=? 57)%N.

Fixpoint all_digits (s : string) : bool :=
  match s with
  | EmptyString => true
  | String c s' => is_digit c && all_digits s'
  end.

Fixpoint after_digit (s : string) : bool :=
  match s with
  | EmptyString => true
  | String c s' =>
      if is_digit c then after_digit s'
      else Ascii.eqb c "."%char && negb (String.eqb s' "") && all_digits s'
  end.

Definition is_literal (s : string) : bool :=
  match s with
  | EmptyString => false
  | String c s' => is_digit c && after_digit s'
  end.

Definition float (s : string) : option number :=
  if is_literal s then Some (Lit s) else None.

End Decimal.

(** ** Inputs, as the specification describes them *)

(** A plain line: not empty, without the two characters the parser gives a
    meaning of their own (the quote character and NUL), and with every
    field within the field size limit. On such lines the parser's fields
    are the pieces [split] cuts. *)
Definition within_limit (f : string) : bool :=
  (N.of_nat (String.length f) <=? field_limit)%N.

Definition plain (sep : ascii) (line : string) : bool :=
  negb (String.eqb line "") && negb (contains DQUOTE line)
  && negb (contains NUL line) && forallb within_limit (split sep line).

(** The specification's well-formed input, once cut into lines: a header
    with distinct names, and data lines with as many fields as the header. *)
Definition well_formed (sep : ascii) (header : string) (rows : list string)
  : Prop :=
  NoDup (split sep header) ∧
  Forall (λ r, length (split sep r) = length (split sep header)) rows.

(** Outside a field the reader's buffer is empty: a field is saved, and
    the buffer emptied, when the parser leaves it. *)
Definition buffer_flushed (self : ReaderObj) : Prop :=
  match state self with
  | IN_FIELD | IN_QUOTED_FIELD | QUOTE_IN_QUOTED_FIELD => True
  | START_RECORD | START_FIELD | EAT_CRNL => field_len self = 0%N
  end.

(** The values of row [k] of a table, in the order of [names]; [None] when
    some column has no string at index [k]. *)
Definition row_values (columns : table) (names : list string) (k : nat)
  : option (list string) :=
  mapM (λ name, match column columns (Some name) !! k with
                | Some (VStr v) => Some v
                | _ => None
                end) names.

Definition nl : string := String LF "".

(** ** Around the aggregator *)

(** A text as a program prints it: every line followed by the terminator. *)
Definition unlines (terminator : string) (lines : list string) : string :=
  foldr (λ l s, l +:+ terminator +:+ s) "" lines.

Fixpoint has_linebreak (s : string) : bool :=
  match s with
  | EmptyString => false
  | String c s' => is_linebreak c || has_linebreak s'
  end.

(** A field of 131073 characters, one more than the reader accepts. *)
Definition long_field : string := N.iter 131073 (String "x"%char) "".

(** A table after lookups of [names], one after the other. *)
Definition looked_up (names : list string) (cols : table) : table :=
  foldl (λ cols name, (getitem (Some name) cols).2) cols names.

Definition starts_with_quote (f : string) : bool :=
  match f with
  | String c _ => Ascii.eqb c DQUOTE
  | EmptyString => false
  end.

(** A field written between quote characters. *)
Definition quoted (f : string) : string :=
  String DQUOTE (f +:+ String DQUOTE "").

(** A line that the reader cuts where [split] cuts it: not empty, without
    NUL, with no field that begins with a quote character or exceeds the
    field size limit and, should the delimiter be the quote character
    itself, without a quote character at all. A quote character inside a
    field is allowed. *)
Definition unquoted (sep : ascii) (line : string) : bool :=
  negb (String.eqb line "") && negb (contains NUL line)
  && forallb (λ f, negb (starts_with_quote f) && within_limit f) (split sep line)
  && (negb (Ascii.eqb sep DQUOTE) || negb (contains DQUOTE line)).

(** The shape the specification gives the result for a header [names]
    followed by [n] data records: no exception, once a record was read the
    names as the keys of the table, one entry each, and [n] values in the
    sequence read under every name. *)
Definition table_shape (result : table * option exception)
    (names : list string) (n : nat) : Prop :=
  result.2 = None ∧
  dom result.1 = match n with 0 => ∅ | S _ => list_to_set (Some <$> names) end ∧
  size result.1 = match n with 0 => 0 | S _ => length names end ∧
  ∀ name, name ∈ names → length (column result.1 (Some name)) = n.

(** An iterator that first yields the elements of a list. *)
Definition yield_all {A : Type} (l : list A) (it : iterator A) : iterator A :=
  foldr Yield it l.

(** The number of rows the loop reads from a text: the non-empty records
    after the first. *)
Definition row_count (separator : ascii) (text : string) : nat :=
  length (filter (λ r, r ≠ []) (tail (records separator text).1)).

(** [np.arange(n)], which the plot of the next cell takes its bar
    positions from: [bar_positions = np.arange(len(watersheds))]. *)
Definition np_arange (n : nat) : list nat := seq 0 n.

(** ** The set-up lines of the notebooks
<<
    gisbase = subprocess.check_output(["grass", "--config", "path"], text=True).strip()
    os.environ["GISBASE"] = gisbase
    sys.path.append(os.path.join(gisbase, "etc", "python"))
>>
    as a function of the text the command printed, on a POSIX system. *)

(** [str.isspace] on one character: TAB to CR, FS to US, the space, NEL
    and the no-break space. *)
Definition isspace (c : ascii) : bool :=
  match N_of_ascii c with
  | 9 | 10 | 11 | 12 | 13 | 28 | 29 | 30 | 31 | 32 | 133 | 160 => true
  | _ => false
  end%N.

Fixpoint all_space (s : string) : bool :=
  match s with
  | EmptyString => true
  | String c s' => isspace c && all_space s'
  end.

Fixpoint lstrip (s : string) : string :=
  match s with
  | EmptyString => EmptyString
  | String c s' => if isspace c then lstrip s' else s
  end.

Fixpoint rstrip (s : string) : string :=
  match s with
  | EmptyString => EmptyString
  | String c s' =>
      match rstrip s' with
      | EmptyString => if isspace c then EmptyString else String c EmptyString
      | r => String c r
      end
  end.

(** [s.strip()] *)
Definition strip (s : string) : string := rstrip (lstrip s).

Definition startswith_space (s : string) : bool :=
  match s with
  | String c _ => isspace c
  | EmptyString => false
  end.

Fixpoint endswith_space (s : string) : bool :=
  match s with
  | EmptyString => false
  | String c EmptyString => isspace c
  | String _ s' => endswith_space s'
  end.

(** A string with no white space at its ends. *)
Definition trimmed (s : string) : bool :=
  negb (startswith_space s) && negb (endswith_space s).

Definition startswith_sep (b : string) : bool :=
  match b with
  | String c _ => Ascii.eqb c "/"%char
  | EmptyString => false
  end.

Fixpoint endswith_sep (s : string) : bool :=
  match s with
  | EmptyString => false
  | String c EmptyString => Ascii.eqb c "/"%char
  | String _ s' => endswith_sep s'
  end.

(** One round of the loop of [posixpath.join]:
<<
    if b.startswith(sep):
        path = b
    elif not path or path.endswith(sep):
        path += b
    else:
        path += sep + b
>> *)
Definition join_step (path b : string) : string :=
  if startswith_sep b then b
  else if String.eqb path "" || endswith_sep path then path +:+ b
       else path +:+ "/" +:+ b.

(** [os.path.join(a, *p)] *)
Definition os_path_join (a : string) (p : list string) : string :=
  foldl join_step a p.

(** The part of the process the lines change. *)
Record process := mkProcess {
  environ : gmap string string;
  sys_path : list string
}.

(** Assigning to [os.environ] raises [ValueError] (embedded null byte) for
    a value with a NUL, before anything is changed. *)
Inductive set_up_result :=
| SetUp (p : process)
| ValueError_embedded_null_byte.

(** What the text mode of [check_output(..., text=True)] does to the
    decoded output, read in universal newlines mode: CR LF and a CR alone
    both become LF. [after_cr] tells that the previous character was a CR,
    already written as LF. *)
Fixpoint translate_scan (after_cr : bool) (s : string) : string :=
  match s with
  | EmptyString => EmptyString
  | String c s' =>
      if after_cr && Ascii.eqb c LF then translate_scan false s'
      else if Ascii.eqb c CR then String LF (translate_scan true s')
           else String c (translate_scan false s')
  end.

Definition translate_newlines (s : string) : string := translate_scan false s.

(** [output] holds the characters the command printed, as the codec of the
    locale decodes them. *)
Definition set_up (output : string) (p : process) : set_up_result :=
  let gisbase := strip (translate_newlines output) in
  if contains NUL gisbase then ValueError_embedded_null_byte
  else SetUp (mkProcess (<["GISBASE" := gisbase]> (environ p))
                        (sys_path p ++ [os_path_join gisbase ["etc"; "python"]])).

(** * Properties *)

(** ** Strings *)

Lemma string_app_nil_r (s : string) : s +:+ "" = s.
Proof. induction s as [|c s IH]; [done|]. by rewrite <-IH at 2. Qed.

Lemma string_app_assoc (s1 s2 s3 : string) : (s1 +:+ s2) +:+ s3 = s1 +:+ (s2 +:+ s3).
Proof.
  induction s1 as [|c s1 IH]; [done|].
  change (String c ((s1 +:+ s2) +:+ s3) = String c (s1 +:+ (s2 +:+ s3))).
  by rewrite IH.
Qed.

Lemma rev_app_app (s1 s2 : string) :
  String.rev_app s1 s2 = String.rev s1 +:+ s2.
Proof.
  unfold String.rev. revert s2.
  induction s1 as [|c s1 IH]; intros s2; [done|].
  cbn [String.rev_app]. rewrite (IH (String c "")), IH, string_app_assoc. done.
Qed.

Lemma rev_cons (c : ascii) (s : string) :
  String.rev (String c s) = String.rev s +:+ String c "".
Proof. unfold String.rev at 1. cbn [String.rev_app]. apply rev_app_app. Qed.

Lemma split_cons (sep : ascii) (s : string) :
  ∃ f fs, split sep s = f :: fs.
Proof.
  destruct s as [|c s]; cbn [split]; [by eauto|].
  destruct (Ascii.eqb c sep); [by eauto|].
  destruct (split sep s); eauto.
Qed.

Lemma split_not_nil (sep : ascii) (s : string) : split sep s ≠ [].
Proof. destruct (split_cons sep s) as (f & fs & ->); done. Qed.

(** Joining the pieces of a line gives the line back. *)
Lemma join_split (sep : ascii) (s : string) : join sep (split sep s) = s.
Proof.
  unfold join. induction s as [|c s IH]; [done|].
  cbn [split]. destruct (split_cons sep s) as (f & fs & Hs).
  rewrite Hs in IH |- *.
  destruct (Ascii.eqb_spec c sep) as [->|Hc].
  - cbn [concat]. by rewrite <-IH.
  - rewrite <-IH. by destruct fs.
Qed.

(** ** The parser on plain lines *)

Lemma contains_cons_false (x c : ascii) (s : string) :
  contains x (String c s) = false →
  Ascii.eqb c x = false ∧ contains x s = false.
Proof. cbn [contains]. by intros ?%orb_false_iff. Qed.

(** From the start of a field, or inside an unquoted one holding [buf], a
    line without special characters is cut exactly where [split] cuts it,
    and the end of the line completes the record. *)
Lemma parse_line_plain (sep : ascii) (s : string) :
  ∀ st fs buf f r,
    st = IN_FIELD ∨ (st = START_FIELD ∧ buf = "") →
    contains DQUOTE s = false → contains NUL s = false →
    contains LF s = false → contains CR s = false →
    split sep s = f :: r →
    (N.of_nat (String.length buf + String.length f) ≤ field_limit)%N →
    forallb within_limit r = true →
    parse_line sep (mkReader st fs buf (N.of_nat (String.length buf))) s
    = Ok (mkReader START_RECORD (fs ++ (String.rev buf +:+ f) :: r) "" 0).
Proof.
  induction s as [|c s IH]; intros st fs buf f r Hst Hq Hn Hl Hc Hs Hlim Hr.
  - injection Hs as <- <-. rewrite string_app_nil_r.
    by destruct Hst as [->|[-> ->]].
  - apply contains_cons_false in Hq as [Hq1 Hq], Hn as [Hn1 Hn],
      Hl as [Hl1 Hl], Hc as [Hc1 Hc].
    cbn [parse_line]. rewrite Hn1.
    cbn [split] in Hs. destruct (split_cons sep s) as (f' & r' & Hs').
    rewrite Hs' in Hs.
    assert (is_eol c = false) as Heol.
    { unfold is_eol. by rewrite Hl1, Hc1, Hn1. }
    destruct (Ascii.eqb c sep) eqn:Hsep.
    + (* the delimiter: the field is saved *)
      injection Hs as <- <-. rewrite string_app_nil_r.
      cbn [forallb] in Hr. apply andb_true_iff in Hr as [Hf' Hr'].
      assert (parse_process_char sep
                (mkReader st fs buf (N.of_nat (String.length buf))) c
              = Ok (mkReader START_FIELD (fs ++ [String.rev buf]) ""
                      (N.of_nat (String.length "")))) as ->.
      { destruct Hst as [->|[-> ->]];
          unfold parse_process_char, start_field; cbn;
          by rewrite ?Heol, ?Hq1, ?Hsep. }
      cbn [mbind result_bind].
      rewrite (IH START_FIELD (fs ++ [String.rev buf]) "" f' r');
        [|by auto|done..| |done].
      * by rewrite <-(assoc_L (++)).
      * apply N.leb_le in Hf'. exact Hf'.
    + (* any other character joins the field *)
      injection Hs as <- <-. cbn [String.length] in Hlim.
      assert (parse_process_char sep
                (mkReader st fs buf (N.of_nat (String.length buf))) c
              = Ok (mkReader IN_FIELD fs (String c buf)
                      (N.of_nat (String.length (String c buf))))) as ->.
      { assert ((field_limit <=? N.of_nat (String.length buf))%N = false) as Hlt
          by (apply N.leb_gt; lia).
        cbn [String.length]. rewrite Nat2N.inj_succ.
        destruct Hst as [->|[-> ->]];
          unfold parse_process_char, start_field, parse_add_char; cbn;
          cbn in Hlt; by rewrite ?Heol, ?Hq1, ?Hsep, ?Hlt. }
      cbn [mbind result_bind].
      rewrite (IH IN_FIELD fs (String c buf) f' r'); [|by auto|done..| |done].
      * rewrite rev_cons, string_app_assoc. done.
      * cbn [String.length]. lia.
Qed.

Lemma contains_app (x : ascii) (s1 s2 : string) :
  contains x (s1 +:+ s2) = contains x s1 || contains x s2.
Proof.
  induction s1 as [|c s1 IH]; [done|].
  change (Ascii.eqb c x || contains x (s1 +:+ s2)
          = Ascii.eqb c x || contains x s1 || contains x s2).
  rewrite IH. by destruct (Ascii.eqb c x).
Qed.

Lemma contains_rev (x : ascii) (s : string) :
  contains x (String.rev s) = contains x s.
Proof.
  induction s as [|c s IH]; [done|].
  rewrite rev_cons, contains_app, IH. cbn [contains].
  by destruct (Ascii.eqb c x), (contains x s).
Qed.

(** No line of [splitlines] holds a line break. *)
Lemma splitlines_scan_no_break (x : ascii) (s : string) :
  is_linebreak x = true →
  ∀ after_cr cur, contains x cur = false →
    Forall (λ l, contains x l = false) (splitlines_scan after_cr cur s).
Proof.
  intros Hx. induction s as [|c s IH]; intros after_cr cur Hcur.
  - cbn [splitlines_scan]. destruct cur; [done|].
    apply Forall_singleton. by rewrite contains_rev.
  - cbn [splitlines_scan].
    destruct (after_cr && Ascii.eqb c LF); [by apply IH|].
    destruct (is_linebreak c) eqn:Hc.
    + apply Forall_cons. split; [by rewrite contains_rev|by apply IH].
    + apply IH. cbn [contains]. rewrite Hcur.
      destruct (Ascii.eqb_spec c x) as [->|]; [congruence|done].
Qed.

Lemma splitlines_no_newline (text : string) :
  Forall (λ l, contains LF l = false ∧ contains CR l = false) (splitlines text).
Proof.
  apply Forall_and. split; by apply splitlines_scan_no_break.
Qed.

Lemma plain_inv (sep : ascii) (line : string) :
  plain sep line = true →
  line ≠ "" ∧ contains DQUOTE line = false ∧ contains NUL line = false
  ∧ forallb within_limit (split sep line) = true.
Proof.
  unfold plain. rewrite !andb_true_iff, !negb_true_iff.
  intros [[[Hne ?] ?] ?]. by apply String.eqb_neq in Hne.
Qed.

(** A plain line is one record, with the fields [split] gives. *)
Lemma parse_line_record (sep : ascii) (line : string) :
  plain sep line = true →
  contains LF line = false → contains CR line = false →
  parse_line sep (mkReader START_RECORD [] "" 0) line
  = Ok (mkReader START_RECORD (split sep line) "" 0).
Proof.
  intros (Hne & Hq & Hn & Hlim)%plain_inv Hl Hc.
  destruct (split_cons sep line) as (f & r & Hs).
  rewrite Hs in Hlim |- *. cbn [forallb] in Hlim.
  apply andb_true_iff in Hlim as [Hf Hr]. apply N.leb_le in Hf.
  change (f :: r) with ([] ++ (String.rev "" +:+ f) :: r).
  rewrite <-(parse_line_plain sep line START_FIELD [] "" f r); auto.
  destruct line as [|c line]; [done|].
  apply contains_cons_false in Hn as [Hn1 _], Hl as [Hl1 _], Hc as [Hc1 _].
  cbn [parse_line]. rewrite Hn1.
  unfold parse_process_char at 1. cbn [state]. by rewrite Hn1, Hl1, Hc1.
Qed.

(** Plain lines are read as one record each. *)
Lemma Reader_iter_plain (sep : ascii) (lines : list string) :
  forallb (plain sep) lines = true →
  Forall (λ l, contains LF l = false ∧ contains CR l = false) lines →
  Reader_iter sep (mkReader START_RECORD [] "" 0) lines
  = yields (split sep <$> lines).
Proof.
  induction lines as [|line lines IH]; intros Hp Hnl; [done|].
  cbn [forallb] in Hp. apply andb_true_iff in Hp as [Hp1 Hp].
  apply Forall_cons in Hnl as [[Hl Hc] Hnl].
  cbn [Reader_iter]. rewrite parse_line_record by done.
  cbn [state fields]. unfold parse_reset. cbn [field field_len].
  by rewrite IH.
Qed.

(** ** Iterators *)

Lemma items_yields {A} (l : list A) : items (yields l) = l.
Proof. induction l as [|a l IH]; [done|]. cbn [yields foldr items]. by f_equal. Qed.

Lemma raised_yields {A} (l : list A) : raised (yields l) = None.
Proof. by induction l. Qed.

Lemma for_each_spec {A S} (body : S → A → S) (it : iterator A) (s : S) :
  for_each body it s = (foldl body s (items it), raised it).
Proof. revert s. induction it as [| |a rest IH]; intros s; cbn; auto. Qed.

Lemma items_DictReader_rows (fieldnames : list string) (it : iterator (list string)) :
  items (DictReader_rows fieldnames it)
  = DictReader_row fieldnames <$> filter (λ r, r ≠ []) (items it).
Proof.
  induction it as [| |row rest IH]; [done..|].
  destruct row as [|v row]; cbn [DictReader_rows items].
  - by rewrite filter_cons_False by auto.
  - rewrite filter_cons_True by done. by rewrite IH.
Qed.

Lemma raised_DictReader_rows (fieldnames : list string) (it : iterator (list string)) :
  raised (DictReader_rows fieldnames it) = raised it.
Proof. induction it as [| |row rest IH]; [done..|]. by destruct row. Qed.

(** ** Dictionaries *)

Lemma dict_get_set (k : key) (v : value) (d : dict) (k' : key) :
  dict_get k' (dict_set k v d) = if decide (k = k') then Some v else dict_get k' d.
Proof.
  induction d as [|[k0 v0] d IH]; cbn [dict_set dict_get];
    repeat (case_decide; subst; cbn [dict_get]); congruence.
Qed.

Lemma dict_set_keys (k : key) (v : value) (d : dict) (k' : key) :
  k' ∈ (dict_set k v d).*1 ↔ k' = k ∨ k' ∈ d.*1.
Proof.
  induction d as [|[k0 v0] d IH]; cbn [dict_set].
  - set_solver.
  - case_decide; subst; rewrite !fmap_cons, !elem_of_cons; cbn; [tauto|].
    rewrite IH. tauto.
Qed.

Lemma dict_set_NoDup (k : key) (v : value) (d : dict) :
  NoDup d.*1 → NoDup (dict_set k v d).*1.
Proof.
  induction d as [|[k0 v0] d IH]; cbn [dict_set].
  - intros _. apply NoDup_singleton.
  - rewrite fmap_cons, NoDup_cons. cbn. intros [Hk0 Hd].
    case_decide; subst; [by apply NoDup_cons|].
    rewrite fmap_cons, NoDup_cons. cbn. split; [|by auto].
    rewrite dict_set_keys. by intros [?|?].
Qed.

Lemma dict_get_None (k : key) (d : dict) : dict_get k d = None ↔ k ∉ d.*1.
Proof.
  induction d as [|[k0 v0] d IH]; cbn [dict_get]; [set_solver|].
  rewrite fmap_cons, not_elem_of_cons. cbn.
  case_decide; subst; [split; [done|by intros [? _]]|].
  rewrite IH. split; [by intros; split|by intros [_ ?]].
Qed.

(** A run of assignments [d[g x] = h x], for [x] in [l]. *)
Section dict_fold.
Context {X : Type} (g : X → key) (h : X → value).

Local Abbreviation assign := (foldl (λ d x, dict_set (g x) (h x) d)).

Lemma assign_NoDup (l : list X) (d : dict) :
  NoDup d.*1 → NoDup (assign d l).*1.
Proof.
  revert d. induction l as [|x l IH]; intros d Hd; [done|].
  cbn [foldl]. by apply IH, dict_set_NoDup.
Qed.

Lemma assign_other (l : list X) (d : dict) (k : key) :
  k ∉ g <$> l → dict_get k (assign d l) = dict_get k d.
Proof.
  revert d. induction l as [|x l IH]; intros d Hk; [done|].
  rewrite fmap_cons, not_elem_of_cons in Hk. destruct Hk as [Hk1 Hk2].
  cbn [foldl]. rewrite IH by done. rewrite dict_get_set.
  by case_decide.
Qed.

(** The last assignment to a key wins; when all agree, so does the result. *)
Lemma assign_agree (l : list X) (d : dict) (k : key) (v : value) :
  k ∈ g <$> l → (∀ x, x ∈ l → g x = k → h x = v) →
  dict_get k (assign d l) = Some v.
Proof.
  revert d. induction l as [|x l IH]; intros d Hk Hv.
  - by apply elem_of_nil in Hk.
  - cbn [foldl]. destruct (decide (k ∈ g <$> l)) as [Hin|Hout].
    + apply IH; [done|]. intros y Hy. apply Hv. by right.
    + rewrite assign_other by done. rewrite dict_get_set.
      rewrite fmap_cons, elem_of_cons in Hk. destruct Hk as [->|?]; [|done].
      rewrite decide_True by done. f_equal. apply Hv; [by left|done].
Qed.

Lemma assign_is_Some (l : list X) (d : dict) (k : key) :
  k ∈ g <$> l → is_Some (dict_get k (assign d l)).
Proof.
  revert d. induction l as [|x l IH]; intros d Hk.
  - by apply elem_of_nil in Hk.
  - cbn [foldl]. destruct (decide (k ∈ g <$> l)) as [Hin|Hout]; [by apply IH|].
    rewrite assign_other by done. rewrite dict_get_set.
    rewrite fmap_cons, elem_of_cons in Hk. destruct Hk as [->|?]; [|done].
    rewrite decide_True by done. eauto.
Qed.

Lemma assign_origin (l : list X) (d : dict) (k : key) (v : value) :
  dict_get k (assign d l) = Some v →
  (∃ x, x ∈ l ∧ g x = k ∧ h x = v) ∨ dict_get k d = Some v.
Proof.
  revert d. induction l as [|x l IH]; intros d Hv; [by right|].
  cbn [foldl] in Hv. apply IH in Hv as [(y & Hy & ? & ?)|Hv].
  - left. exists y. split; [by right|done].
  - rewrite dict_get_set in Hv. case_decide; [|by right].
    injection Hv as <-.
    left. exists x. split; [by left|done].
Qed.
End dict_fold.

(** ** The rows of [DictReader] *)

Lemma zip_key (fieldnames row : list string) (name : string) :
  Some name ∈ (λ kv : string * string, Some kv.1) <$> zip fieldnames row
  ↔ ∃ i, fieldnames !! i = Some name ∧ i < length row.
Proof.
  rewrite list_elem_of_fmap. split.
  - intros ([a b] & [= ->] & (i & x & y & [= <- <-] & Hx & Hy)%elem_of_lookup_zip_with).
    exists i. split; [done|]. by eapply lookup_lt_Some.
  - intros (i & Hi & [v Hv]%lookup_lt_is_Some_2).
    exists (name, v). split; [done|]. by eapply elem_of_lookup_zip_with_2.
Qed.

Lemma None_not_key {X : Type} (g : X → string) (l : list X) :
  None ∉ (λ x, Some (g x)) <$> l.
Proof. by intros (x & ? & _)%list_elem_of_fmap. Qed.

Lemma DictReader_row_NoDup (fieldnames row : list string) :
  NoDup (DictReader_row fieldnames row).*1.
Proof.
  unfold DictReader_row. cbv zeta.
  repeat case_match;
    repeat first [apply dict_set_NoDup | apply assign_NoDup | apply NoDup_nil_2].
Qed.

(** What [dict(zip(fieldnames, row))] holds under a name, when names are
    distinct. *)
Lemma dict_zip_get (fieldnames row : list string) (i : nat) (name : string) :
  NoDup fieldnames → fieldnames !! i = Some name →
  dict_get (Some name)
    (foldl (λ d kv, dict_set (Some kv.1) (VStr kv.2) d) [] (zip fieldnames row))
  = VStr <$> row !! i.
Proof.
  intros Hnd Hi. destruct (row !! i) as [v|] eqn:Hv; cbn.
  - apply (assign_agree (λ kv : string * string, Some kv.1)
                        (λ kv : string * string, VStr kv.2)).
    + apply zip_key. exists i. split; [done|]. by eapply lookup_lt_Some.
    + intros [a b] (j & x & y & [= <- <-] & Hx & Hy)%elem_of_lookup_zip_with [= ->].
      assert (j = i) as -> by (by eapply NoDup_lookup). cbn. congruence.
  - rewrite (assign_other (λ kv : string * string, Some kv.1)
                          (λ kv : string * string, VStr kv.2)); [done|].
    intros (j & Hj & Hlt)%zip_key.
    assert (j = i) as -> by (by eapply NoDup_lookup).
    apply lookup_ge_None in Hv. lia.
Qed.

(** With distinct names, a row holds under the [i]-th name the [i]-th
    value of the record, and [None] when the record is too short. *)
Lemma DictReader_row_get (fieldnames row : list string) (i : nat) (name : string) :
  NoDup fieldnames → fieldnames !! i = Some name →
  dict_get (Some name) (DictReader_row fieldnames row)
  = Some (match row !! i with Some v => VStr v | None => VNone end).
Proof.
  intros Hnd Hi. unfold DictReader_row. cbv zeta.
  assert (i < length fieldnames) as Hlt by (by eapply lookup_lt_Some).
  destruct (length fieldnames <? length row) eqn:H1.
  { apply Nat.ltb_lt in H1. rewrite dict_get_set, decide_False by done.
    rewrite (dict_zip_get _ _ i) by done.
    destruct (lookup_lt_is_Some_2 row i) as [v ->]; [lia|done]. }
  apply Nat.ltb_ge in H1.
  destruct (length row <? length fieldnames) eqn:H2.
  - apply Nat.ltb_lt in H2. destruct (row !! i) as [v|] eqn:Hv.
    + rewrite (assign_other (λ k : string, Some k) (λ _, VNone)).
      { by rewrite (dict_zip_get _ _ i), Hv. }
      intros (n & [= <-] & (j & Hj)%list_elem_of_lookup)%list_elem_of_fmap.
      rewrite lookup_drop in Hj.
      assert (length row + j = i) as <- by (by eapply NoDup_lookup).
      apply lookup_lt_Some in Hv. lia.
    + apply (assign_agree (λ k : string, Some k) (λ _, VNone)); [|done].
      apply list_elem_of_fmap_2, list_elem_of_lookup.
      exists (i - length row). rewrite lookup_drop.
      apply lookup_ge_None in Hv. by replace (length row + (i - length row)) with i by lia.
  - apply Nat.ltb_ge in H2. rewrite (dict_zip_get _ _ i) by done.
    destruct (lookup_lt_is_Some_2 row i) as [v ->]; [lia|done].
Qed.

(** Every field name is a key of every row, distinct names or not. *)
Lemma DictReader_row_is_Some (fieldnames row : list string) (name : string) :
  name ∈ fieldnames →
  is_Some (dict_get (Some name) (DictReader_row fieldnames row)).
Proof.
  intros [i Hi]%list_elem_of_lookup. unfold DictReader_row. cbv zeta.
  assert (i < length fieldnames) as Hlt by (by eapply lookup_lt_Some).
  assert (i < length row →
          is_Some (dict_get (Some name)
            (foldl (λ d kv, dict_set (Some kv.1) (VStr kv.2) d) []
                   (zip fieldnames row)))) as Hzip.
  { intros ?. apply (assign_is_Some (λ kv : string * string, Some kv.1)
                                    (λ kv : string * string, VStr kv.2)).
    apply zip_key. eauto. }
  destruct (length fieldnames <? length row) eqn:H1.
  { apply Nat.ltb_lt in H1. rewrite dict_get_set, decide_False by done.
    apply Hzip. lia. }
  apply Nat.ltb_ge in H1.
  destruct (length row <? length fieldnames) eqn:H2.
  - destruct (decide (Some name ∈ (λ k : string, Some k) <$> drop (length row) fieldnames))
      as [Hin|Hout].
    + by apply (assign_is_Some (λ k : string, Some k) (λ _, VNone)).
    + rewrite (assign_other (λ k : string, Some k) (λ _, VNone)) by done.
      apply Hzip. destruct (decide (i < length row)) as [|Hge]; [done|].
      exfalso. apply Hout, list_elem_of_fmap_2, list_elem_of_lookup.
      exists (i - length row). rewrite lookup_drop.
      by replace (length row + (i - length row)) with i by lia.
  - apply Nat.ltb_ge in H2. apply Hzip. lia.
Qed.

(** The names past the end of a short record are bound to [None]. *)
Lemma DictReader_row_restval (fieldnames row : list string) (name : string) :
  name ∈ drop (length row) fieldnames →
  dict_get (Some name) (DictReader_row fieldnames row) = Some VNone.
Proof.
  intros Hin. unfold DictReader_row. cbv zeta.
  assert (length row < length fieldnames) as Hlt.
  { destruct (decide (length row < length fieldnames)) as [|Hge]; [done|].
    rewrite drop_ge in Hin by lia. by apply elem_of_nil in Hin. }
  rewrite (proj2 (Nat.ltb_ge _ _)) by lia.
  rewrite (proj2 (Nat.ltb_lt _ _)) by lia.
  apply (assign_agree (λ k : string, Some k) (λ _, VNone)); [|done].
  by apply list_elem_of_fmap_2.
Qed.

(** The surplus values of a long record are bound, as one list, to the
    key [None]; other rows do not have this key. *)
Lemma DictReader_row_restkey (fieldnames row : list string) :
  dict_get None (DictReader_row fieldnames row)
  = if length fieldnames <? length row
    then Some (VList (drop (length fieldnames) row)) else None.
Proof.
  unfold DictReader_row. cbv zeta.
  destruct (length fieldnames <? length row).
  { by rewrite dict_get_set, decide_True. }
  destruct (length row <? length fieldnames).
  - rewrite (assign_other (λ k : string, Some k) (λ _, VNone))
      by apply None_not_key.
    by rewrite (assign_other (λ kv : string * string, Some kv.1)
                             (λ kv : string * string, VStr kv.2))
      by apply (None_not_key fst).
  - by rewrite (assign_other (λ kv : string * string, Some kv.1)
                             (λ kv : string * string, VStr kv.2))
      by apply (None_not_key fst).
Qed.

(** Under a name a row holds a string or [None], and only names of the
    header are keys. *)
Lemma DictReader_row_origin (fieldnames row : list string) (name : string) (v : value) :
  dict_get (Some name) (DictReader_row fieldnames row) = Some v →
  name ∈ fieldnames ∧ is_list v = false.
Proof.
  unfold DictReader_row. cbv zeta. intros Hv.
  assert (∀ v, dict_get (Some name)
            (foldl (λ d kv, dict_set (Some kv.1) (VStr kv.2) d) []
                   (zip fieldnames row)) = Some v →
          name ∈ fieldnames ∧ is_list v = false) as Hzip.
  { intros w Hw.
    apply (assign_origin (λ kv : string * string, Some kv.1)
                         (λ kv : string * string, VStr kv.2)) in Hw
      as [([a b] & Hin & [= ->] & <-)|?]; [|done].
    split; [|done]. by apply elem_of_zip_l in Hin. }
  destruct (length fieldnames <? length row).
  { rewrite dict_get_set, decide_False in Hv by done. by apply Hzip. }
  destruct (length row <? length fieldnames); [|by apply Hzip].
  apply (assign_origin (λ k : string, Some k) (λ _, VNone)) in Hv
    as [(a & Hin & [= ->] & <-)|?]; [|by apply Hzip].
  split; [|done]. by eapply subseteq_drop.
Qed.

(** ** The column table *)

Lemma lookup_append_item (cols : table) (k : key) (v : value) (k' : key) :
  append_item cols (k, v) !! k'
  = if decide (k = k') then Some (column cols k ++ [v]) else cols !! k'.
Proof.
  unfold append_item, getitem, column. cbn [fst snd].
  destruct (cols !! k) eqn:Hk;
    case_decide; subst; by rewrite ?lookup_insert_eq, ?lookup_insert_ne.
Qed.

(** A row adds one value to the column of each of its keys. *)
Lemma lookup_add_row (d : dict) (cols : table) (k : key) :
  NoDup d.*1 →
  add_row cols d !! k
  = match dict_get k d with
    | Some v => Some (column cols k ++ [v])
    | None => cols !! k
    end.
Proof.
  unfold add_row. revert cols.
  induction d as [|[k0 v0] d IH]; intros cols Hd; [done|].
  rewrite fmap_cons, NoDup_cons in Hd. destruct Hd as [Hk0 Hd].
  cbn [fst] in Hk0. cbn [foldl dict_get]. rewrite IH by done.
  case_decide; subst.
  - apply dict_get_None in Hk0. rewrite Hk0.
    by rewrite lookup_append_item, decide_True.
  - unfold column. rewrite lookup_append_item, decide_False by done. done.
Qed.

Lemma column_add_rows (ds : list dict) (cols : table) (k : key) :
  Forall (λ d, NoDup d.*1) ds →
  column (foldl add_row cols ds) k = column cols k ++ omap (dict_get k) ds.
Proof.
  revert cols. induction ds as [|d ds IH]; intros cols Hds.
  - by rewrite app_nil_r.
  - apply Forall_cons in Hds as [Hd Hds]. cbn [foldl omap list_omap].
    rewrite IH by done. unfold column at 1. rewrite lookup_add_row by done.
    destruct (dict_get k d); [|done].
    by rewrite <-(assoc_L (++)).
Qed.

Lemma lookup_add_rows_None (ds : list dict) (cols : table) (k : key) :
  Forall (λ d, NoDup d.*1) ds →
  foldl add_row cols ds !! k = None
  ↔ cols !! k = None ∧ Forall (λ d, dict_get k d = None) ds.
Proof.
  revert cols. induction ds as [|d ds IH]; intros cols Hds.
  - cbn. split; [by intros; split|by intros [? _]].
  - apply Forall_cons in Hds as [Hd Hds]. cbn [foldl].
    rewrite IH, Forall_cons, lookup_add_row by done.
    destruct (dict_get k d); [|tauto].
    split; [by intros [[=] _]|by intros (_ & [=] & _)].
Qed.

(** ** The aggregator in terms of the reader's records *)

Lemma aggregate_records (sep : ascii) (text : string) :
  aggregate sep text
  = (match (records sep text).1 with
     | names :: recs => table_of names recs
     | [] => ∅
     end, (records sep text).2).
Proof.
  unfold aggregate, records. cbv zeta.
  destruct (csv_reader sep (splitlines text)) as [it|e]; [|done].
  rewrite for_each_spec. destruct it as [| |names rest]; [done..|].
  cbn [DictReader items raised fst snd].
  by rewrite items_DictReader_rows, raised_DictReader_rows.
Qed.

(** The records of a text made of plain lines. *)
Lemma records_plain (sep : ascii) (text : string) (lines : list string) :
  sep ≠ NUL → splitlines text = lines → forallb (plain sep) lines = true →
  records sep text = (split sep <$> lines, None).
Proof.
  intros Hsep Hlines Hplain. unfold records, csv_reader.
  destruct (Ascii.eqb_spec sep NUL) as [|_]; [done|].
  rewrite Hlines. unfold parse_reset, new_reader. cbn [field field_len].
  rewrite Reader_iter_plain; [|done|].
  - by rewrite items_yields, raised_yields.
  - rewrite <-Hlines. apply splitlines_no_newline.
Qed.

Lemma filter_split_nonempty (sep : ascii) (lines : list string) :
  filter (λ r, r ≠ []) (split sep <$> lines) = split sep <$> lines.
Proof.
  induction lines as [|l lines IH]; [done|].
  rewrite fmap_cons, filter_cons_True by apply split_not_nil. by rewrite IH.
Qed.

(** The table of a text made of plain lines. *)
Lemma aggregate_plain (sep : ascii) (text header : string) (rows : list string) :
  sep ≠ NUL → splitlines text = header :: rows →
  forallb (plain sep) (header :: rows) = true →
  aggregate sep text
  = (foldl add_row ∅ (DictReader_row (split sep header) <$> (split sep <$> rows)),
     None).
Proof.
  intros Hsep Hlines Hplain.
  rewrite aggregate_records, (records_plain sep text (header :: rows)) by done.
  cbn [fmap list_fmap fst snd]. unfold table_of.
  by rewrite filter_split_nonempty.
Qed.

(** A column of such a table, under the [i]-th name of a header with
    distinct names: one entry per data line, the line's [i]-th field, or
    [None] if the line has no such field. *)
Lemma column_plain (sep : ascii) (text header : string) (rows : list string)
    (i : nat) (name : string) :
  sep ≠ NUL → splitlines text = header :: rows →
  forallb (plain sep) (header :: rows) = true →
  NoDup (split sep header) → split sep header !! i = Some name →
  column (aggregate sep text).1 (Some name)
  = (λ row, match split sep row !! i with Some v => VStr v | None => VNone end)
    <$> rows.
Proof.
  intros Hsep Hlines Hplain Hnd Hi.
  rewrite (aggregate_plain sep text header rows) by done. cbn [fst].
  rewrite column_add_rows.
  2:{ apply Forall_fmap, Forall_forall. intros r _. apply DictReader_row_NoDup. }
  unfold column at 1. rewrite lookup_empty. cbn [app].
  clear Hlines Hplain. induction rows as [|row rows IH]; [done|].
  rewrite !fmap_cons. cbn [omap list_omap].
  rewrite (DictReader_row_get _ _ i) by done. by f_equal.
Qed.

(** ** The reader's buffer *)

Lemma parse_process_char_flushed (sep : ascii) (self self' : ReaderObj) (c : ascii) :
  buffer_flushed self → parse_process_char sep self c = Ok self' →
  buffer_flushed self'.
Proof.
  destruct self as [st fs f n].
  unfold buffer_flushed, parse_process_char, start_field, parse_add_char,
    set_state, parse_save_field, after_eol.
  cbn [state fields field field_len mbind result_bind].
  intros Hinv Hstep.
  destruct st; repeat case_match; unfold mbind, result_bind in *;
    simplify_eq; cbn [state field_len] in *; done.
Qed.

Lemma parse_line_flushed (sep : ascii) (line : string) :
  ∀ self self', buffer_flushed self → parse_line sep self line = Ok self' →
                buffer_flushed self'.
Proof.
  induction line as [|c line IH]; intros self self' Hinv; cbn [parse_line].
  - by apply parse_process_char_flushed.
  - destruct (Ascii.eqb c NUL); [done|].
    destruct (parse_process_char sep self c) as [self1|e] eqn:Hc; [|done].
    cbn [mbind result_bind]. apply IH.
    by eapply parse_process_char_flushed.
Qed.

(** After a header alone the table is empty, whatever the header is and
    whether or not the reader raises on it. *)
Lemma aggregate_header_only (sep : ascii) (text header : string) :
  splitlines text = [header] → (aggregate sep text).1 = ∅.
Proof.
  intros Hlines. unfold aggregate, csv_reader. cbv zeta. rewrite Hlines.
  destruct (Ascii.eqb sep NUL); [done|]. cbn [Reader_iter].
  destruct (parse_line sep (parse_reset new_reader) header) as [self|e] eqn:Hp;
    [|done].
  apply parse_line_flushed in Hp; [|done].
  unfold buffer_flushed in Hp.
  destruct (state self) eqn:Hst; try (by destruct (pending self)).
  unfold pending, parse_reset. cbn [field_len state]. by rewrite Hp.
Qed.

(** ** The exceptions of the reader *)

Lemma parse_process_char_raises (sep : ascii) (self : ReaderObj) (c : ascii) :
  state self ≠ EAT_CRNL → Ascii.eqb c LF = false → Ascii.eqb c CR = false →
  match parse_process_char sep self c with
  | Ok self' => state self' ≠ EAT_CRNL
  | Err e => e = csv_Error_field_larger_than_field_limit
  end.
Proof.
  destruct self as [st fs f n].
  unfold parse_process_char, start_field, parse_add_char, set_state,
    parse_save_field, after_eol, is_eol.
  cbn [state fields field field_len]. intros Hst -> ->. cbn [orb].
  destruct st; try done;
    destruct (Ascii.eqb c NUL), (Ascii.eqb c DQUOTE), (Ascii.eqb c sep),
      (field_limit <=? n)%N; done.
Qed.

Lemma parse_line_raises (sep : ascii) (line : string) :
  ∀ self, state self ≠ EAT_CRNL →
    contains LF line = false → contains CR line = false →
    match parse_line sep self line with
    | Ok self' => state self' ≠ EAT_CRNL
    | Err e => e = csv_Error_line_contains_NULL_byte
               ∨ e = csv_Error_field_larger_than_field_limit
    end.
Proof.
  induction line as [|c line IH]; intros self Hst Hl Hc; cbn [parse_line].
  - pose proof (parse_process_char_raises sep self NUL Hst eq_refl eq_refl) as H.
    destruct (parse_process_char sep self NUL); [done|by right].
  - apply contains_cons_false in Hl as [Hl1 Hl], Hc as [Hc1 Hc].
    destruct (Ascii.eqb c NUL); [by left|].
    pose proof (parse_process_char_raises sep self c Hst Hl1 Hc1) as H.
    destruct (parse_process_char sep self c) as [self1|e]; [|by right].
    cbn [mbind result_bind]. by apply IH.
Qed.

Lemma Reader_iter_raises (sep : ascii) (lines : list string) (e : exception) :
  Forall (λ l, contains LF l = false ∧ contains CR l = false) lines →
  ∀ self, state self ≠ EAT_CRNL →
    raised (Reader_iter sep self lines) = Some e →
    e = csv_Error_line_contains_NULL_byte
    ∨ e = csv_Error_field_larger_than_field_limit.
Proof.
  induction 1 as [|line lines [Hl Hc] _ IH]; intros self Hst; cbn [Reader_iter].
  - by destruct (pending self).
  - pose proof (parse_line_raises sep line self Hst Hl Hc) as H.
    destruct (parse_line sep self line) as [self1|e1]; cbn [raised].
    + destruct (state self1) eqn:Hst1; cbn [raised]; try done;
        apply IH; by rewrite ?Hst1.
    + by intros [= <-].
Qed.

(** The reader raises for three reasons only. *)
Lemma records_raises (sep : ascii) (text : string) (e : exception) :
  (records sep text).2 = Some e →
  e = TypeError_delimiter_must_be_a_1_character_string
  ∨ e = csv_Error_line_contains_NULL_byte
  ∨ e = csv_Error_field_larger_than_field_limit.
Proof.
  unfold records, csv_reader.
  destruct (Ascii.eqb sep NUL); cbn [snd]; [intros [= <-]; by left|].
  intros He. right.
  eapply Reader_iter_raises; [apply splitlines_no_newline| |exact He]. done.
Qed.

(** ** Columns in terms of the reader's records *)

Lemma column_table_of (names : list string) (recs : list (list string)) (k : key) :
  column (table_of names recs) k
  = omap (λ r, dict_get k (DictReader_row names r)) (filter (λ r, r ≠ []) recs).
Proof.
  unfold table_of. rewrite column_add_rows.
  2:{ apply Forall_fmap, Forall_forall. intros r _. apply DictReader_row_NoDup. }
  unfold column at 1. rewrite lookup_empty. cbn [app].
  induction (filter (λ r, r ≠ []) recs) as [|r rs IH]; [done|].
  rewrite fmap_cons. cbn [omap list_omap]. by rewrite IH.
Qed.

Lemma lookup_omap_total {A B} (f : A → option B) (l : list A) (k : nat) (a : A) :
  (∀ x, is_Some (f x)) → l !! k = Some a → omap f l !! k = f a.
Proof.
  intros Hf. revert k. induction l as [|x l IH]; intros k Hk; [done|].
  cbn [omap list_omap]. destruct (Hf x) as [y Hy]. rewrite Hy.
  destruct k as [|k]; [by injection Hk as ->|]. by apply IH.
Qed.

Lemma length_omap_total {A B} (f : A → option B) (l : list A) :
  (∀ x, is_Some (f x)) → length (omap f l) = length l.
Proof.
  intros Hf. induction l as [|x l IH]; [done|].
  cbn [omap list_omap]. destruct (Hf x) as [y ->]. cbn. by rewrite IH.
Qed.

(** A name that is not in the header is not a key of the table. *)
Lemma lookup_aggregate_absent (sep : ascii) (text name : string) :
  name ∉ fieldnames sep text → (aggregate sep text).1 !! Some name = None.
Proof.
  unfold fieldnames. rewrite aggregate_records. cbn [fst].
  destruct (records sep text).1 as [|names recs]; [done|]. intros Hout.
  unfold table_of. apply lookup_add_rows_None.
  { apply Forall_fmap, Forall_forall. intros r _. apply DictReader_row_NoDup. }
  split; [done|]. apply Forall_fmap, Forall_forall. intros r _. cbn.
  destruct (dict_get (Some name) (DictReader_row names r)) as [v|] eqn:Hv; [|done].
  by apply DictReader_row_origin in Hv as [? _].
Qed.

(** ** Numeric conversion *)

Section Conversion.
Context {float32 : Type} (nan : float32) (float : string → option float32).

(** The conversion of a flat list stops at the first string that does not
    parse, with an exception that carries that string. *)
Lemma convert_items_Err (l : list value) (s : string) :
  existsb is_list l = false → VStr s ∈ l → float s = None →
  ∃ pre s' post,
    l = pre ++ VStr s' :: post ∧ float s' = None ∧
    Forall (λ v, ∀ x, v = VStr x → is_Some (float x)) pre ∧
    convert_items nan float l
    = Err (ValueError_could_not_convert_string_to_float s').
Proof.
  induction l as [|v l IH]; intros Hl Hin Hs; [by apply elem_of_nil in Hin|].
  cbn [existsb] in Hl. apply orb_false_iff in Hl as [Hv Hl].
  cbn [convert_items].
  destruct v as [x| |xs]; cbn [FLOAT_setitem]; [| |done].
  - destruct (float x) as [y|] eqn:Hx.
    + cbn [mbind result_bind].
      destruct IH as (pre & s' & post & -> & Hs' & Hpre & ->); [done| |done|].
      { apply elem_of_cons in Hin as [[= ->]|?]; [congruence|done]. }
      exists (VStr x :: pre), s', post. split_and!; try done.
      apply Forall_cons. split; [|done]. intros ? [= <-]. by rewrite Hx.
    + exists [], x, l. by split_and!.
  - cbn [mbind result_bind].
    destruct IH as (pre & s' & post & -> & Hs' & Hpre & ->); [done| |done|].
    { by apply elem_of_cons in Hin as [[=]|?]. }
    exists (VNone :: pre), s', post. split_and!; try done.
    apply Forall_cons. split; [|done]. by intros ? [=].
Qed.

(** When every string parses, the array has one number per value, and NaN
    wherever the list has [None]. *)
Lemma convert_items_Ok (l : list value) :
  existsb is_list l = false →
  (∀ s, VStr s ∈ l → is_Some (float s)) →
  ∃ a, convert_items nan float l = Ok a ∧ length a = length l ∧
       ∀ k, l !! k = Some VNone → a !! k = Some nan.
Proof.
  induction l as [|v l IH]; intros Hl Hall.
  - by exists [].
  - cbn [existsb] in Hl. apply orb_false_iff in Hl as [Hv Hl].
    destruct IH as (a & Ha & Hlen & Hnan); [done| |].
    { intros s Hs. apply Hall. by right. }
    cbn [convert_items]. rewrite Ha.
    destruct v as [x| |xs]; cbn [FLOAT_setitem]; [| |done].
    + destruct (Hall x) as [y Hy]; [by left|]. rewrite Hy.
      exists (y :: a). split_and!; [done|by cbn; rewrite Hlen|].
      intros [|k] Hk; [done|]. by apply Hnan.
    + exists (nan :: a). split_and!; [done|by cbn; rewrite Hlen|].
      intros [|k] Hk; [done|]. by apply Hnan.
Qed.

End Conversion.

(** A column under a name holds strings and [None] only. *)
Lemma column_named_flat (sep : ascii) (text name : string) :
  existsb is_list (column (aggregate sep text).1 (Some name)) = false.
Proof.
  rewrite aggregate_records. cbn [fst].
  destruct (records sep text).1 as [|names recs]; [done|].
  rewrite column_table_of.
  destruct (existsb _ _) eqn:Hex; [|done].
  apply existsb_exists in Hex as (v & Hin & Hv).
  apply list_elem_of_In, list_elem_of_omap in Hin as (r & _ & Hr).
  apply DictReader_row_origin in Hr as [_ Hr]. congruence.
Qed.

(** ** Lines whose fields begin with no quote character *)

(** Inside an unquoted field a quote character is a character like any
    other: the parser cuts the line where [split] cuts it as long as no
    field begins with a quote. *)
Lemma parse_line_inner_quotes (sep : ascii) (s : string) :
  sep ≠ DQUOTE →
  ∀ st fs buf f r,
    st = IN_FIELD ∨ (st = START_FIELD ∧ buf = "" ∧ starts_with_quote f = false) →
    contains NUL s = false → contains LF s = false → contains CR s = false →
    split sep s = f :: r →
    forallb (λ f, negb (starts_with_quote f)) r = true →
    (N.of_nat (String.length buf + String.length f) ≤ field_limit)%N →
    forallb within_limit r = true →
    parse_line sep (mkReader st fs buf (N.of_nat (String.length buf))) s
    = Ok (mkReader START_RECORD (fs ++ (String.rev buf +:+ f) :: r) "" 0).
Proof.
  intros Hsepq.
  assert (Ascii.eqb sep DQUOTE = false) as Hsq by (by apply Ascii.eqb_neq).
  induction s as [|c s IH]; intros st fs buf f r Hst Hn Hl Hc Hs Hr0 Hlim Hr.
  - injection Hs as <- <-. rewrite string_app_nil_r.
    by destruct Hst as [->|(-> & -> & _)].
  - apply contains_cons_false in Hn as [Hn1 Hn], Hl as [Hl1 Hl], Hc as [Hc1 Hc].
    cbn [parse_line]. rewrite Hn1.
    cbn [split] in Hs. destruct (split_cons sep s) as (f' & r' & Hs').
    rewrite Hs' in Hs.
    assert (is_eol c = false) as Heol.
    { unfold is_eol. by rewrite Hl1, Hc1, Hn1. }
    destruct (Ascii.eqb c sep) eqn:Hsep.
    + injection Hs as <- <-. rewrite string_app_nil_r.
      apply Ascii.eqb_eq in Hsep as ->.
      cbn [forallb] in Hr, Hr0.
      apply andb_true_iff in Hr as [Hf' Hr'], Hr0 as [Hq' Hr0'].
      apply negb_true_iff in Hq'.
      assert (parse_process_char sep
                (mkReader st fs buf (N.of_nat (String.length buf))) sep
              = Ok (mkReader START_FIELD (fs ++ [String.rev buf]) ""
                      (N.of_nat (String.length "")))) as ->.
      { destruct Hst as [->|(-> & -> & _)];
          unfold parse_process_char, start_field; cbn;
          by rewrite ?Heol, ?Hsq, ?Ascii.eqb_refl. }
      cbn [mbind result_bind].
      rewrite (IH START_FIELD (fs ++ [String.rev buf]) "" f' r');
        [|by auto|done..| |done].
      * by rewrite <-(assoc_L (++)).
      * apply N.leb_le in Hf'. exact Hf'.
    + injection Hs as <- <-. cbn [String.length] in Hlim.
      assert (parse_process_char sep
                (mkReader st fs buf (N.of_nat (String.length buf))) c
              = Ok (mkReader IN_FIELD fs (String c buf)
                      (N.of_nat (String.length (String c buf))))) as ->.
      { assert ((field_limit <=? N.of_nat (String.length buf))%N = false) as Hlt
          by (apply N.leb_gt; lia).
        cbn [String.length]. rewrite Nat2N.inj_succ.
        destruct Hst as [->|(-> & -> & Hq)];
          unfold parse_process_char, start_field, parse_add_char; cbn;
          cbn in Hlt.
        - by rewrite Heol, Hsep, Hlt.
        - cbn in Hq. by rewrite Heol, Hq, Hsep, Hlt. }
      cbn [mbind result_bind].
      rewrite (IH IN_FIELD fs (String c buf) f' r'); [|by auto|done..| |done].
      * rewrite rev_cons, string_app_assoc. done.
      * cbn [String.length]. lia.
Qed.

Lemma contains_split (x sep : ascii) (s : string) :
  contains x s = false → Forall (λ f, contains x f = false) (split sep s).
Proof.
  induction s as [|c s IH]; intros Hs; [by repeat constructor|].
  apply contains_cons_false in Hs as [Hc Hs]. specialize (IH Hs).
  cbn [split]. destruct (Ascii.eqb c sep); [by constructor|].
  destruct (split sep s) as [|f fs].
  - repeat constructor. cbn [contains]. by rewrite Hc.
  - apply Forall_cons in IH as [Hf Hfs]. constructor; [|done].
    cbn [contains]. by rewrite Hc, Hf.
Qed.

Lemma unquoted_inv (sep : ascii) (line : string) :
  unquoted sep line = true →
  line ≠ "" ∧ contains NUL line = false
  ∧ forallb (λ f, negb (starts_with_quote f)) (split sep line) = true
  ∧ forallb within_limit (split sep line) = true
  ∧ (sep ≠ DQUOTE ∨ contains DQUOTE line = false).
Proof.
  unfold unquoted. intros H.
  apply andb_true_iff in H as [H Hq]. apply andb_true_iff in H as [H Hall].
  apply andb_true_iff in H as [Hne Hn].
  apply negb_true_iff in Hne, Hn. apply String.eqb_neq in Hne.
  assert (forallb (λ f, negb (starts_with_quote f)) (split sep line) = true
          ∧ forallb within_limit (split sep line) = true) as [? ?].
  { clear -Hall. induction (split sep line) as [|f l IH]; [done|].
    cbn [forallb] in Hall |- *.
    apply andb_true_iff in Hall as [[H1 H2]%andb_true_iff Hall].
    destruct (IH Hall) as [-> ->]. by rewrite H1, H2. }
  split_and!; try done.
  apply orb_true_iff in Hq as [Hq|Hq]; apply negb_true_iff in Hq;
    [left; by apply Ascii.eqb_neq|by right].
Qed.

(** Every plain line is such a line. *)
Lemma plain_unquoted (sep : ascii) (line : string) :
  plain sep line = true → unquoted sep line = true.
Proof.
  intros (Hne & Hq & Hn & Hlim)%plain_inv. unfold unquoted.
  apply String.eqb_neq in Hne. rewrite Hne, Hn, Hq, orb_true_r, andb_true_r.
  cbn [negb andb].
  pose proof (contains_split DQUOTE sep line Hq) as Hfs.
  induction Hfs as [|f fs Hf _ IH]; [done|].
  cbn [forallb] in Hlim |- *. apply andb_true_iff in Hlim as [-> Hlim].
  rewrite IH by done. destruct f as [|c f]; [done|].
  apply contains_cons_false in Hf as [Hc _]. cbn [starts_with_quote].
  by rewrite Hc.
Qed.

(** Such a line is one record, with the fields [split] gives. *)
Lemma parse_line_unquoted (sep : ascii) (line : string) :
  unquoted sep line = true →
  contains LF line = false → contains CR line = false →
  parse_line sep (mkReader START_RECORD [] "" 0) line
  = Ok (mkReader START_RECORD (split sep line) "" 0).
Proof.
  intros Hline Hl Hc.
  destruct (unquoted_inv sep line Hline) as (Hne & Hn & Hq & Hlim & [Hsepq|Hnq]).
  - destruct (split_cons sep line) as (f & r & Hs).
    rewrite Hs in Hq, Hlim |- *. cbn [forallb] in Hq, Hlim.
    apply andb_true_iff in Hq as [Hq Hqr], Hlim as [Hf Hr].
    apply negb_true_iff in Hq. apply N.leb_le in Hf.
    change (f :: r) with ([] ++ (String.rev "" +:+ f) :: r).
    rewrite <-(parse_line_inner_quotes sep line Hsepq START_FIELD [] "" f r);
      auto.
    destruct line as [|c line]; [done|].
    apply contains_cons_false in Hn as [Hn1 _], Hl as [Hl1 _], Hc as [Hc1 _].
    cbn [parse_line]. rewrite Hn1.
    unfold parse_process_char at 1. cbn [state]. by rewrite Hn1, Hl1, Hc1.
  - apply parse_line_record; [|done..]. unfold plain.
    apply String.eqb_neq in Hne. by rewrite Hne, Hnq, Hn, Hlim.
Qed.

Lemma Reader_iter_unquoted (sep : ascii) (lines : list string) :
  forallb (unquoted sep) lines = true →
  Forall (λ l, contains LF l = false ∧ contains CR l = false) lines →
  Reader_iter sep (mkReader START_RECORD [] "" 0) lines
  = yields (split sep <$> lines).
Proof.
  induction lines as [|line lines IH]; intros Hp Hnl; [done|].
  cbn [forallb] in Hp. apply andb_true_iff in Hp as [Hp1 Hp].
  apply Forall_cons in Hnl as [[Hl Hc] Hnl].
  cbn [Reader_iter]. rewrite parse_line_unquoted by done.
  cbn [state fields]. unfold parse_reset. cbn [field field_len].
  by rewrite IH.
Qed.

(** The records of a text made of such lines: the lines, cut by [split]. *)
Lemma records_unquoted (sep : ascii) (text : string) (lines : list string) :
  sep ≠ NUL → splitlines text = lines → forallb (unquoted sep) lines = true →
  records sep text = (split sep <$> lines, None).
Proof.
  intros Hsep Hlines Hq. unfold records, csv_reader.
  destruct (Ascii.eqb_spec sep NUL) as [|_]; [done|].
  rewrite Hlines. unfold parse_reset, new_reader. cbn [field field_len].
  rewrite Reader_iter_unquoted; [|done|].
  - by rewrite items_yields, raised_yields.
  - rewrite <-Hlines. apply splitlines_no_newline.
Qed.

(** ** The table in terms of the records *)

Lemma filter_nonempty (recs : list (list string)) :
  Forall (λ r, r ≠ []) recs → filter (λ r, r ≠ []) recs = recs.
Proof.
  induction 1 as [|r recs Hr _ IH]; [done|].
  rewrite filter_cons_True by done. by rewrite IH.
Qed.

(** A column under the [i]-th of the distinct names of the header, when
    the reader yields no empty record after it: one entry per record, the
    record's [i]-th field, or [None] if the record has no such field. *)
Lemma column_records (sep : ascii) (text : string) (names : list string)
    (recs : list (list string)) (i : nat) (name : string) :
  (records sep text).1 = names :: recs → Forall (λ r, r ≠ []) recs →
  NoDup names → names !! i = Some name →
  column (aggregate sep text).1 (Some name)
  = (λ r, match r !! i with Some v => VStr v | None => VNone end) <$> recs.
Proof.
  intros Hrecs Hne Hnd Hi. rewrite aggregate_records, Hrecs. cbn [fst].
  rewrite column_table_of, filter_nonempty by done. clear Hrecs Hne.
  induction recs as [|r recs IH]; [done|].
  rewrite fmap_cons. cbn [omap list_omap].
  rewrite (DictReader_row_get _ _ i) by done. by f_equal.
Qed.

(** The keys of the table, when no record is empty or longer than the
    header: the names of the header once a record was read, none before. *)
Lemma dom_records (sep : ascii) (text : string) (names : list string)
    (recs : list (list string)) :
  (records sep text).1 = names :: recs →
  Forall (λ r, r ≠ [] ∧ length r ≤ length names) recs →
  dom (aggregate sep text).1
  = match recs with
    | [] => ∅
    | _ => list_to_set (Some <$> names)
    end.
Proof.
  intros Hrecs [Hne Hlen]%Forall_and.
  rewrite aggregate_records, Hrecs. cbn [fst]. unfold table_of.
  rewrite filter_nonempty by done. clear Hrecs Hne.
  assert (Forall (λ d : dict, NoDup d.*1) (DictReader_row names <$> recs)) as Hds.
  { apply Forall_fmap, Forall_forall. intros r _. apply DictReader_row_NoDup. }
  destruct recs as [|r recs]; [by apply dom_empty_L|].
  apply set_eq. intros k.
  rewrite elem_of_list_to_set, elem_of_dom, <-not_eq_None_Some.
  rewrite lookup_add_rows_None by done. rewrite lookup_empty. split.
  - intros Hk. destruct k as [name|].
    + apply list_elem_of_fmap_2.
      destruct (decide (name ∈ names)) as [|Hout]; [done|].
      exfalso. apply Hk. split; [done|].
      apply Forall_fmap, Forall_forall. intros r' _. cbn.
      destruct (dict_get (Some name) (DictReader_row names r')) as [v|] eqn:Hv;
        [|done].
      by apply DictReader_row_origin in Hv as [? _].
    + exfalso. apply Hk. split; [done|].
      apply Forall_fmap. eapply Forall_impl; [exact Hlen|]. intros r' Hr'.
      cbn in Hr' |- *. rewrite DictReader_row_restkey.
      by rewrite (proj2 (Nat.ltb_ge _ _)) by lia.
  - intros (name & -> & Hname)%list_elem_of_fmap [_ Hall].
    rewrite fmap_cons in Hall. apply Forall_cons in Hall as [Hrow _].
    destruct (DictReader_row_is_Some names r name Hname) as [v Hv].
    congruence.
Qed.

(** The shape of the result, when the reader yields, without an
    exception, a header of distinct names and then records that are
    neither empty nor longer than the header. *)
Lemma table_shape_records (sep : ascii) (text : string) (names : list string)
    (recs : list (list string)) :
  records sep text = (names :: recs, None) → NoDup names →
  Forall (λ r, r ≠ [] ∧ length r ≤ length names) recs →
  table_shape (aggregate sep text) names (length recs).
Proof.
  intros Hrecs Hnd Hall.
  assert ((records sep text).1 = names :: recs) as Hrecs1 by (by rewrite Hrecs).
  pose proof (dom_records sep text names recs Hrecs1 Hall) as Hdom.
  apply Forall_and in Hall as [Hne Hlen]. unfold table_shape. split_and!.
  - by rewrite aggregate_records, Hrecs.
  - rewrite Hdom. by destruct recs.
  - rewrite <-size_dom, Hdom. destruct recs; [done|].
    rewrite size_list_to_set by (by apply (NoDup_fmap_2 Some)).
    by rewrite length_fmap.
  - intros name [i Hi]%list_elem_of_lookup.
    rewrite (column_records sep text names recs i name) by done.
    by rewrite length_fmap.
Qed.

(** A column of the table of a text made of lines whose fields begin with
    no quote, under the [i]-th of the header's distinct names: one entry
    per data line, the line's [i]-th field, or [None] if the line has no
    such field. *)
Lemma column_unquoted (sep : ascii) (text header : string) (rows : list string)
    (i : nat) (name : string) :
  sep ≠ NUL → splitlines text = header :: rows →
  forallb (unquoted sep) (header :: rows) = true →
  NoDup (split sep header) → split sep header !! i = Some name →
  column (aggregate sep text).1 (Some name)
  = (λ row, match split sep row !! i with Some v => VStr v | None => VNone end)
    <$> rows.
Proof.
  intros Hsep Hlines Hq Hnd Hi.
  rewrite (column_records sep text (split sep header) (split sep <$> rows) i name);
    [|by rewrite (records_unquoted sep text (header :: rows))| |done..].
  - by rewrite <-list_fmap_compose.
  - apply Forall_fmap, Forall_forall. intros r _. apply split_not_nil.
Qed.

(** * The claims *)

(** C1, as stated, fails on the code in two ways. A quote character makes
    [csv.reader] read across lines: the header [a] and two data lines of
    one field each, a quote character followed by [x], and [y], give a
    column of one value, not two. And after a header alone the table has
    no entry at all, since only a data row creates a key. *)
Lemma C1_counterexample :
  let text := "a" +:+ nl +:+ String DQUOTE "x" +:+ nl +:+ "y" in
  splitlines text = ["a"; String DQUOTE "x"; "y"] ∧
  well_formed "|" "a" [String DQUOTE "x"; "y"] ∧
  column (aggregate "|" text).1 (Some "a") = [VStr "xy"] ∧
  splitlines "a|b" = ["a|b"] ∧
  well_formed "|" "a|b" [] ∧
  size (aggregate "|" "a|b").1 = 0.
Proof.
  cbv zeta. split_and!; try (vm_compute; reflexivity).
  - split; [compute_done|]. repeat constructor.
  - split; [compute_done|]. constructor.
Qed.

(** C1 (amended). Whenever the reader yields, without an exception, a
    header of distinct names and then [N] records, none empty and none
    longer than the header, the aggregator raises nothing; with at least
    one record the table's keys are exactly the header's names, as many as
    the header has columns, and with a header alone the table is empty; in
    both cases every header column, as a lookup reads it, has [N] values.
    A well-formed input is read that way, one record per line and the
    record's fields the line's delimiter-separated fields, when the
    delimiter is not NUL, no line is empty or holds NUL, and no field
    begins with a quote character or is over the field size limit (nor,
    should the delimiter be the quote character, any line holds one); a
    quote character inside a field does no harm. So there [N] is the
    number of data lines. *)
Theorem C1_table_shape (sep : ascii) (text : string) :
  (∀ names recs,
     records sep text = (names :: recs, None) → NoDup names →
     Forall (λ r, r ≠ [] ∧ length r ≤ length names) recs →
     table_shape (aggregate sep text) names (length recs)) ∧
  (∀ header rows,
     sep ≠ NUL → splitlines text = header :: rows →
     forallb (unquoted sep) (header :: rows) = true →
     well_formed sep header rows →
     records sep text = (split sep header :: (split sep <$> rows), None) ∧
     table_shape (aggregate sep text) (split sep header) (length rows)).
Proof.
  split; [apply table_shape_records|].
  intros header rows Hsep Hlines Hq [Hnd Hlen].
  pose proof (records_unquoted sep text (header :: rows) Hsep Hlines Hq) as Hrecs.
  rewrite fmap_cons in Hrecs. split; [done|].
  rewrite <-(length_fmap (split sep) rows).
  apply table_shape_records; [done..|].
  apply Forall_fmap. eapply Forall_impl; [exact Hlen|]. intros r Hr.
  cbn in Hr |- *. split; [apply split_not_nil|lia].
Qed.

(** C1 (amended), on a header and two data lines, the first of them with
    a quote character inside a field. *)
Lemma C1_witness :
  let r1 := "5" +:+ String DQUOTE "|1.5" in
  let text := "zone|mean" +:+ nl +:+ r1 +:+ nl +:+ "7|2.5" +:+ nl in
  splitlines text = ["zone|mean"; r1; "7|2.5"] ∧
  well_formed "|" "zone|mean" [r1; "7|2.5"] ∧
  (aggregate "|" text).2 = None ∧
  size (aggregate "|" text).1 = 2 ∧
  length (column (aggregate "|" text).1 (Some "mean")) = 2.
Proof.
  cbv zeta.
  assert (well_formed "|" "zone|mean" ["5" +:+ String DQUOTE "|1.5"; "7|2.5"])
    as Hwf.
  { split; [compute_done|]. repeat constructor. }
  destruct (C1_table_shape "|"
              ("zone|mean" +:+ nl +:+ ("5" +:+ String DQUOTE "|1.5") +:+ nl
               +:+ "7|2.5" +:+ nl)) as [_ Hlines].
  destruct (Hlines "zone|mean" ["5" +:+ String DQUOTE "|1.5"; "7|2.5"])
    as (_ & Hex & _ & Hsize & Hlen); [done|reflexivity|reflexivity|exact Hwf|].
  split_and!; [reflexivity|exact Hwf|exact Hex|exact Hsize|].
  apply Hlen. compute_done.
Defined.

(** C2. With the delimiter [|], the text of the three lines
    [zone|mean|stddev], [1|12.5|3.2] and [2|8.0|1.1] gives exactly the table
    that maps zone to 1, 2, mean to 12.5, 8.0 and stddev to 3.2, 1.1, and no
    exception, whether or not the last line ends with a newline. *)
Theorem C2_concrete_scenario :
  let lines := "zone|mean|stddev" +:+ nl +:+ "1|12.5|3.2" +:+ nl +:+ "2|8.0|1.1" in
  let expected : table :=
    {[ Some "zone" := [VStr "1"; VStr "2"];
       Some "mean" := [VStr "12.5"; VStr "8.0"];
       Some "stddev" := [VStr "3.2"; VStr "1.1"] ]} in
  aggregate "|" lines = (expected, None) ∧
  aggregate "|" (lines +:+ nl) = (expected, None).
Proof. split; vm_compute; reflexivity. Qed.

(** C3, as stated, fails on the code: a quote character opens a quoted
    field, which runs over the end of the line. Write Q for the quote
    character. With the header [k|v] and the two data lines [1|Qa] and
    [2|bQ], two fields each, the reader yields one record, so that the
    first element of column [v] is [a2|b], not the second field of the
    first line, and the column has no second element. *)
Lemma C3_counterexample :
  let r1 := "1|" +:+ String DQUOTE "a" in
  let r2 := "2|b" +:+ String DQUOTE "" in
  let text := "k|v" +:+ nl +:+ r1 +:+ nl +:+ r2 +:+ nl in
  splitlines text = ["k|v"; r1; r2] ∧
  well_formed "|" "k|v" [r1; r2] ∧
  split "|" r1 !! 1 = Some (String DQUOTE "a") ∧
  column (aggregate "|" text).1 (Some "v") !! 0 = Some (VStr "a2|b") ∧
  column (aggregate "|" text).1 (Some "v") !! 1 = None.
Proof.
  cbv zeta. split_and!; try (vm_compute; reflexivity).
  split; [compute_done|]. repeat constructor.
Qed.

(** C3 (amended). For a well-formed input and a delimiter other than NUL,
    where no line is empty or holds NUL and no field begins with a quote
    character or is over the field size limit (nor, should the delimiter
    be the quote character, any line holds one), the [k]-th element of the
    column of the header's [i]-th name is the [i]-th field of the [k]-th
    data line. A quote character inside a field is part of the value. *)
Theorem C3_row_order (sep : ascii) (text header : string) (rows : list string)
    (k i : nat) (row name : string) :
  sep ≠ NUL → splitlines text = header :: rows →
  forallb (unquoted sep) (header :: rows) = true →
  well_formed sep header rows →
  rows !! k = Some row → split sep header !! i = Some name →
  ∃ v, split sep row !! i = Some v ∧
       column (aggregate sep text).1 (Some name) !! k = Some (VStr v).
Proof.
  intros Hsep Hlines Hq [Hnd Hlen] Hk Hi.
  rewrite (column_unquoted sep text header rows i name) by done.
  rewrite list_lookup_fmap, Hk. cbn.
  rewrite Forall_forall in Hlen.
  assert (i < length (split sep row)) as [v Hv]%lookup_lt_is_Some_2.
  { rewrite Hlen by (by eapply list_elem_of_lookup_2).
    by eapply lookup_lt_Some. }
  exists v. by rewrite Hv.
Qed.

(** C3 (amended), on the first element of column [zone], a value that
    ends with a quote character. *)
Lemma C3_witness :
  let r1 := "5" +:+ String DQUOTE "|1.5" in
  let text := "zone|mean" +:+ nl +:+ r1 +:+ nl +:+ "7|2.5" +:+ nl in
  splitlines text = ["zone|mean"; r1; "7|2.5"] ∧
  split "|" r1 !! 0 = Some ("5" +:+ String DQUOTE "") ∧
  ∃ v, split "|" r1 !! 0 = Some v ∧
       column (aggregate "|" text).1 (Some "zone") !! 0 = Some (VStr v).
Proof.
  cbv zeta. split; [reflexivity|]. split; [reflexivity|].
  apply (C3_row_order "|" _ "zone|mean"
           ["5" +:+ String DQUOTE "|1.5"; "7|2.5"] 0 0
           ("5" +:+ String DQUOTE "|1.5") "zone");
    [done|reflexivity|reflexivity| |reflexivity|reflexivity].
  split; [compute_done|]. repeat constructor.
Defined.

(** C4, as stated, fails on the code: the reader strips the quotes of a
    quoted field. Write Q for the quote character. With the header [a|b]
    and the data line [QxQ|y], the values of the row are [x] and [y], and
    joining them gives [x|y], which is not the line. *)
Lemma C4_counterexample :
  let r := String DQUOTE "x" +:+ String DQUOTE "|y" in
  let text := "a|b" +:+ nl +:+ r +:+ nl in
  splitlines text = ["a|b"; r] ∧
  well_formed "|" "a|b" [r] ∧
  join "|" <$> row_values (aggregate "|" text).1 (split "|" "a|b") 0 = Some "x|y" ∧
  "x|y" ≠ r.
Proof.
  cbv zeta. split_and!; try (vm_compute; reflexivity); [|done].
  split; [compute_done|]. repeat constructor.
Qed.

(** C4 (amended). For a well-formed input and a delimiter other than NUL,
    where no line is empty or holds NUL and no field begins with a quote
    character or is over the field size limit (nor, should the delimiter
    be the quote character, any line holds one), the values of the [k]-th
    row of the table, taken in the order of the header's names and joined
    with the delimiter, are the [k]-th data line, character for
    character, quote characters inside its fields included. *)
Theorem C4_round_trip (sep : ascii) (text header : string) (rows : list string)
    (k : nat) (row : string) :
  sep ≠ NUL → splitlines text = header :: rows →
  forallb (unquoted sep) (header :: rows) = true →
  well_formed sep header rows →
  rows !! k = Some row →
  join sep <$> row_values (aggregate sep text).1 (split sep header) k = Some row.
Proof.
  intros Hsep Hlines Hq Hwf Hk.
  assert (row_values (aggregate sep text).1 (split sep header) k
          = Some (split sep row)) as ->.
  { apply mapM_Some_2, Forall2_same_length_lookup_2.
    - destruct Hwf as [_ Hlen]. rewrite Forall_forall in Hlen.
      symmetry. apply Hlen. by eapply list_elem_of_lookup_2.
    - intros i name v Hi Hv. destruct Hwf as [Hnd _].
      rewrite (column_unquoted sep text header rows i name) by done.
      by rewrite list_lookup_fmap, Hk; cbn; rewrite Hv. }
  cbn. by rewrite join_split.
Qed.

(** C4 (amended), on a data line with a quote character inside a field. *)
Lemma C4_witness :
  let r1 := "5" +:+ String DQUOTE "|1.5" in
  let text := "zone|mean" +:+ nl +:+ r1 +:+ nl +:+ "7|2.5" +:+ nl in
  splitlines text = ["zone|mean"; r1; "7|2.5"] ∧
  join "|" <$> row_values (aggregate "|" text).1 (split "|" "zone|mean") 0
  = Some r1.
Proof.
  cbv zeta. split; [reflexivity|].
  apply (C4_round_trip "|" _ "zone|mean"
           ["5" +:+ String DQUOTE "|1.5"; "7|2.5"] 0
           ("5" +:+ String DQUOTE "|1.5"));
    [done|reflexivity|reflexivity| |reflexivity].
  split; [compute_done|]. repeat constructor.
Defined.

(** C5, as stated, fails on the code: the table is a [defaultdict] that
    only a data row gives keys to. After the header [zone|mean|stddev]
    alone, [zone] is not a key of the table, which is empty. *)
Lemma C5_counterexample :
  splitlines "zone|mean|stddev" = ["zone|mean|stddev"] ∧
  (aggregate "|" "zone|mean|stddev").1 !! Some "zone" = None ∧
  (aggregate "|" "zone|mean|stddev").1 = ∅.
Proof. split_and!; vm_compute; reflexivity. Qed.

(** C5 (amended). For every input consisting of a header line only, the
    table is empty: no column name is a key of it. Looking any name up in
    it reads the empty sequence, the [defaultdict]'s default. *)
Theorem C5_header_only (sep : ascii) (text header : string) :
  splitlines text = [header] →
  (aggregate sep text).1 = ∅ ∧
  ∀ name, (getitem (Some name) (aggregate sep text).1).1 = [].
Proof.
  intros Hlines. rewrite (aggregate_header_only sep text header) by done.
  split; [done|]. intros name. unfold getitem. by rewrite lookup_empty.
Qed.

(** C5 (amended), on the header [zone|mean|stddev] alone. *)
Lemma C5_witness :
  splitlines "zone|mean|stddev" = ["zone|mean|stddev"] ∧
  (aggregate "|" "zone|mean|stddev").1 = ∅ ∧
  ∀ name, (getitem (Some name) (aggregate "|" "zone|mean|stddev").1).1 = [].
Proof.
  split; [reflexivity|].
  apply (C5_header_only "|" "zone|mean|stddev" "zone|mean|stddev"). reflexivity.
Defined.

(** C6, as stated, fails on the code: no [MalformedRecord] exists. The
    data line [1], one field short of the header [zone|mean], raises
    nothing; the row is padded with [None] and the table is returned. *)
Lemma C6_counterexample :
  let text := "zone|mean" +:+ nl +:+ "1" +:+ nl in
  splitlines text = ["zone|mean"; "1"] ∧
  length (split "|" "1") + 1 = length (split "|" "zone|mean") ∧
  aggregate "|" text
  = ({[ Some "zone" := [VStr "1"]; Some "mean" := [VNone] ]}, None).
Proof. cbv zeta. split_and!; vm_compute; reflexivity. Qed.

(** C6 (amended). For an input made of plain lines, a delimiter other than
    NUL and a header with distinct names, a data line with fewer fields
    than the header raises nothing: the aggregator completes, and the row
    of that line holds the line's fields under the first names and the
    placeholder [None] under the others, the header's last name among
    them. *)
Theorem C6_short_line_padded (sep : ascii) (text header : string)
    (rows : list string) (k : nat) (row : string) :
  sep ≠ NUL → splitlines text = header :: rows →
  forallb (plain sep) (header :: rows) = true →
  NoDup (split sep header) →
  rows !! k = Some row →
  length (split sep row) < length (split sep header) →
  (aggregate sep text).2 = None ∧
  (∀ i name, split sep header !! i = Some name →
     column (aggregate sep text).1 (Some name) !! k
     = Some (match split sep row !! i with Some v => VStr v | None => VNone end)) ∧
  ∃ name, last (split sep header) = Some name ∧
          column (aggregate sep text).1 (Some name) !! k = Some VNone.
Proof.
  intros Hsep Hlines Hplain Hnd Hk Hshort.
  assert (∀ i name, split sep header !! i = Some name →
     column (aggregate sep text).1 (Some name) !! k
     = Some (match split sep row !! i with Some v => VStr v | None => VNone end))
    as Hcol.
  { intros i name Hi.
    rewrite (column_plain sep text header rows i name) by done.
    by rewrite list_lookup_fmap, Hk. }
  split_and!; [by rewrite (aggregate_plain sep text header rows)|done|].
  destruct (split_cons sep header) as (f & fs & Hh).
  assert (is_Some (last (split sep header))) as [name Hlast]
    by (rewrite Hh, last_is_Some; done).
  exists name. split; [done|].
  rewrite last_lookup in Hlast. rewrite (Hcol _ _ Hlast).
  rewrite (proj2 (lookup_ge_None _ _)); [done|lia].
Qed.

(** C6 (amended), on a data line that lacks its second field. *)
Lemma C6_witness :
  let text := "zone|mean" +:+ nl +:+ "1" +:+ nl in
  splitlines text = ["zone|mean"; "1"] ∧
  (aggregate "|" text).2 = None ∧
  column (aggregate "|" text).1 (Some "mean") !! 0 = Some VNone.
Proof.
  cbv zeta. split; [reflexivity|].
  destruct (C6_short_line_padded "|" ("zone|mean" +:+ nl +:+ "1" +:+ nl)
              "zone|mean" ["1"] 0 "1")
    as (Hnone & Hcol & _);
    [done|reflexivity|reflexivity|compute_done|reflexivity|vm_compute; lia|].
  split; [exact Hnone|]. exact (Hcol 1 "mean" eq_refl).
Defined.

(** C7, as stated, fails on the code: there is no [NumericConversionError]
    and no exception of the conversion names a column. With [abc] in the
    columns [mean] and [stddev], converting either one raises the same
    [ValueError], which carries the string only, and the cell ends with it.
    And where a short line left [None] in a column, the conversion raises
    nothing: it puts NaN there. *)
Lemma C7_counterexample :
  let text := "zone|mean|stddev" +:+ nl +:+ "1|abc|abc" +:+ nl in
  let table := (aggregate "|" text).1 in
  let short := (aggregate "|" ("zone|mean" +:+ nl +:+ "1" +:+ nl)).1 in
  np_array_float32 Decimal.NaN Decimal.float (column table (Some "mean"))
  = Err (ValueError_could_not_convert_string_to_float "abc") ∧
  np_array_float32 Decimal.NaN Decimal.float (column table (Some "stddev"))
  = Err (ValueError_could_not_convert_string_to_float "abc") ∧
  (cell Decimal.NaN Decimal.float "|" text (mkKernel ∅ [] [] [])).2
  = Some (ValueError_could_not_convert_string_to_float "abc") ∧
  column short (Some "mean") = [VNone] ∧
  np_array_float32 Decimal.NaN Decimal.float (column short (Some "mean"))
  = Ok [Decimal.NaN].
Proof. cbv zeta. split_and!; vm_compute; reflexivity. Qed.

(** C7 (amended). For every column under a field name, if some string in
    it does not parse as a number, the conversion raises a [ValueError]
    that carries the first such string, as it is, and names no column; no
    array is returned, so that no value is turned into zero or dropped. *)
Theorem C7_conversion_raises {float32 : Type} (nan : float32)
    (float : string → option float32) (sep : ascii) (text name s : string) :
  VStr s ∈ column (aggregate sep text).1 (Some name) → float s = None →
  ∃ pre s' post,
    column (aggregate sep text).1 (Some name) = pre ++ VStr s' :: post ∧
    float s' = None ∧
    Forall (λ v, ∀ x, v = VStr x → is_Some (float x)) pre ∧
    np_array_float32 nan float (column (aggregate sep text).1 (Some name))
    = Err (ValueError_could_not_convert_string_to_float s').
Proof.
  intros Hin Hs. unfold np_array_float32. rewrite column_named_flat.
  by apply (convert_items_Err nan float _ s (column_named_flat sep text name)).
Qed.

(** C7 (amended), on a column whose second value is [abc], with the
    decimal literals as numbers. *)
Lemma C7_witness :
  let text := "zone|mean" +:+ nl +:+ "1|12.5" +:+ nl +:+ "2|abc" +:+ nl in
  let col := column (aggregate "|" text).1 (Some "mean") in
  col = [VStr "12.5"; VStr "abc"] ∧
  ∃ pre s' post,
    col = pre ++ VStr s' :: post ∧ Decimal.float s' = None ∧
    Forall (λ v, ∀ x, v = VStr x → is_Some (Decimal.float x)) pre ∧
    np_array_float32 Decimal.NaN Decimal.float col
    = Err (ValueError_could_not_convert_string_to_float s').
Proof.
  cbv zeta. split; [vm_compute; reflexivity|].
  apply (C7_conversion_raises Decimal.NaN Decimal.float "|" _ "mean" "abc");
    [compute_done|reflexivity].
Defined.

(** C9. Looking up a name that is not among the header's field names, or
    any name at all when the input is a header line only, does not fail: it
    reads the empty sequence, and binds the name to it in the table, as a
    column without data would read. *)
Theorem C9_absent_name_reads_empty (sep : ascii) (text name : string) :
  name ∉ fieldnames sep text ∨ (∃ header, splitlines text = [header]) →
  getitem (Some name) (aggregate sep text).1
  = ([], <[Some name := []]> (aggregate sep text).1).
Proof.
  intros H. unfold getitem.
  assert ((aggregate sep text).1 !! Some name = None) as ->; [|done].
  destruct H as [Hout|[header Hlines]].
  - by apply lookup_aggregate_absent.
  - by rewrite (aggregate_header_only sep text header).
Qed.

(** C9, on a misspelled column name. *)
Lemma C9_witness :
  let text := "zone|mean" +:+ nl +:+ "1|12.5" +:+ nl in
  fieldnames "|" text = ["zone"; "mean"] ∧
  getitem (Some "maen") (aggregate "|" text).1
  = ([], <[Some "maen" := []]> (aggregate "|" text).1).
Proof.
  cbv zeta. split; [reflexivity|].
  apply (C9_absent_name_reads_empty "|" _ "maen").
  left. compute_done.
Defined.

(** C10, as stated, fails on the code for some inputs: [csv.reader]
    raises on a field of more than 131072 characters, its field size
    limit, and the loop ends with that exception. *)
Lemma C10_counterexample :
  (aggregate "|" ("a" +:+ nl +:+ N.iter 131073 (String "x") "")).2
  = Some csv_Error_field_larger_than_field_limit.
Proof. vm_compute. reflexivity. Qed.

(** C10 (amended). For every input with a header, the loop raises only
    what [csv.reader] raises, which is an exception for a NUL delimiter, a
    NUL character or a field over the field size limit, and nothing for
    short or long data lines. The table it builds, up to the end or up to
    that exception, keeps one value per record read in every column under
    a header name; a short record gives [None] to each name past its end,
    and the surplus fields of a long record are gathered, as one list,
    under the key [None], which is no header name. *)
Theorem C10_mismatched_rows (sep : ascii) (text : string)
    (names : list string) (recs : list (list string)) :
  (records sep text).1 = names :: recs →
  let rows := filter (λ r, r ≠ []) recs in
  let table := (aggregate sep text).1 in
  (aggregate sep text).2 = (records sep text).2 ∧
  (∀ e, (aggregate sep text).2 = Some e →
     e = TypeError_delimiter_must_be_a_1_character_string
     ∨ e = csv_Error_line_contains_NULL_byte
     ∨ e = csv_Error_field_larger_than_field_limit) ∧
  (∀ name, name ∈ names → length (column table (Some name)) = length rows) ∧
  (∀ k row name, rows !! k = Some row → name ∈ drop (length row) names →
     column table (Some name) !! k = Some VNone) ∧
  column table None
  = omap (λ row, if length names <? length row
                 then Some (VList (drop (length names) row)) else None) rows.
Proof.
  intros Hrecs. cbv zeta. rewrite aggregate_records, Hrecs. cbn [fst snd].
  split_and!.
  - done.
  - apply records_raises.
  - intros name Hname. rewrite column_table_of.
    apply length_omap_total. intros r. by apply DictReader_row_is_Some.
  - intros k row name Hk Hname. rewrite column_table_of.
    rewrite (lookup_omap_total
               (λ r, dict_get (Some name) (DictReader_row names r)) _ k row).
    + by apply DictReader_row_restval.
    + intros r. apply DictReader_row_is_Some. by eapply subseteq_drop.
    + done.
  - rewrite column_table_of.
    induction (filter (λ r, r ≠ []) recs) as [|r rs IH]; [done|].
    cbn [omap list_omap]. by rewrite DictReader_row_restkey, IH.
Qed.

(** C10 (amended), on a short and a long data line. *)
Lemma C10_witness :
  let text := "a|b" +:+ nl +:+ "1" +:+ nl +:+ "2|3|4|5" +:+ nl in
  (records "|" text).1 = [["a"; "b"]; ["1"]; ["2"; "3"; "4"; "5"]] ∧
  aggregate "|" text
  = ({[ Some "a" := [VStr "1"; VStr "2"]; Some "b" := [VNone; VStr "3"];
        None := [VList ["4"; "5"]] ]}, None) ∧
  length (column (aggregate "|" text).1 (Some "b")) = 2 ∧
  column (aggregate "|" text).1 (Some "b") !! 0 = Some VNone.
Proof.
  cbv zeta.
  destruct (C10_mismatched_rows "|" ("a|b" +:+ nl +:+ "1" +:+ nl +:+ "2|3|4|5" +:+ nl)
              ["a"; "b"] [["1"]; ["2"; "3"; "4"; "5"]] eq_refl)
    as (_ & _ & Hlen & Hnone & _).
  split_and!.
  - reflexivity.
  - vm_compute. reflexivity.
  - apply (Hlen "b"). compute_done.
  - apply (Hnone 0 ["1"] "b"); [reflexivity|compute_done].
Defined.

(** * Further properties of the cell and of the set-up lines *)

(** ** Lines and terminators *)

Lemma rev_app_rev (s1 s2 : string) :
  String.rev (String.rev_app s1 s2) = String.rev s2 +:+ s1.
Proof.
  revert s2. induction s1 as [|c s1 IH]; intros s2; cbn [String.rev_app].
  - by rewrite string_app_nil_r.
  - rewrite IH, rev_cons, string_app_assoc. done.
Qed.

Lemma splitlines_scan_line (l s : string) (cur : string) :
  has_linebreak l = false →
  splitlines_scan false cur (l +:+ s)
  = splitlines_scan false (String.rev_app l cur) s.
Proof.
  revert cur. induction l as [|c l IH]; intros cur Hl; [done|].
  change (String c l +:+ s) with (String c (l +:+ s)).
  cbn [has_linebreak] in Hl. apply orb_false_iff in Hl as [Hc Hl].
  cbn [splitlines_scan andb String.rev_app]. rewrite Hc. by apply IH.
Qed.

Lemma splitlines_scan_LF (l s : string) :
  has_linebreak l = false →
  splitlines_scan false "" (l +:+ nl +:+ s) = l :: splitlines_scan false "" s.
Proof.
  intros Hl. rewrite splitlines_scan_line by done.
  change (nl +:+ s) with (String LF s). cbn [splitlines_scan andb].
  change (is_linebreak LF) with true. cbn match.
  by rewrite rev_app_rev.
Qed.

Lemma splitlines_scan_CRLF (l s : string) :
  has_linebreak l = false →
  splitlines_scan false "" (l +:+ String CR nl +:+ s)
  = l :: splitlines_scan false "" s.
Proof.
  intros Hl. rewrite splitlines_scan_line by done.
  change (String CR nl +:+ s) with (String CR (String LF s)).
  cbn [splitlines_scan andb]. change (is_linebreak CR) with true. cbn match.
  change (Ascii.eqb CR CR) with true. cbn [splitlines_scan andb].
  change (Ascii.eqb LF LF) with true. cbn match.
  by rewrite rev_app_rev.
Qed.

Lemma splitlines_unlines_nl (lines : list string) :
  forallb (λ l, negb (has_linebreak l)) lines = true →
  splitlines (unlines nl lines) = lines.
Proof.
  unfold splitlines. induction lines as [|l lines IH]; intros Hl; [done|].
  cbn [forallb] in Hl. apply andb_true_iff in Hl as [Hl1 Hl].
  apply negb_true_iff in Hl1. cbn [unlines foldr].
  rewrite splitlines_scan_LF by done. f_equal. by apply IH.
Qed.

(** X1. [splitlines] gives back the lines of a text in which every line
    is followed by a terminator, be it LF or CR LF, provided no line holds
    a line break itself; empty lines are kept. *)
Theorem X1_splitlines_unlines (lines : list string) :
  forallb (λ l, negb (has_linebreak l)) lines = true →
  splitlines (unlines nl lines) = lines ∧
  splitlines (unlines (String CR nl) lines) = lines.
Proof.
  unfold splitlines. induction lines as [|l lines IH]; intros Hl; [done|].
  cbn [forallb] in Hl. apply andb_true_iff in Hl as [Hl1 Hl].
  apply negb_true_iff in Hl1. destruct (IH Hl) as [IH1 IH2].
  cbn [unlines foldr]. split.
  - rewrite splitlines_scan_LF by done. f_equal. exact IH1.
  - rewrite splitlines_scan_CRLF by done. f_equal. exact IH2.
Qed.

(** X1, on three lines, the second of them empty. *)
Lemma X1_witness :
  splitlines (unlines nl ["zone|mean"; ""; "1|2"]) = ["zone|mean"; ""; "1|2"] ∧
  splitlines (unlines (String CR nl) ["zone|mean"; ""; "1|2"])
  = ["zone|mean"; ""; "1|2"].
Proof. apply X1_splitlines_unlines. reflexivity. Defined.

(** ** Blank lines *)

Lemma Reader_iter_blank_or_plain (sep : ascii) (lines : list string) :
  Forall (λ l, l = "" ∨ plain sep l = true) lines →
  Forall (λ l, contains LF l = false ∧ contains CR l = false) lines →
  Reader_iter sep (mkReader START_RECORD [] "" 0) lines
  = yields ((λ l, if String.eqb l "" then [] else split sep l) <$> lines).
Proof.
  induction lines as [|line lines IH]; intros Hp Hnl; [done|].
  apply Forall_cons in Hp as [Hp1 Hp], Hnl as [[Hl Hc] Hnl].
  cbn [Reader_iter]. destruct Hp1 as [->|Hp1].
  - cbn [parse_line]. unfold parse_process_char. cbn [state].
    change (Ascii.eqb NUL NUL) with true. cbn match.
    unfold parse_reset. cbn [state fields field field_len].
    by rewrite IH.
  - rewrite parse_line_record by done.
    cbn [state fields]. unfold parse_reset. cbn [field field_len].
    rewrite IH by done. rewrite fmap_cons.
    apply plain_inv in Hp1 as (Hne & _). apply String.eqb_neq in Hne.
    by rewrite Hne.
Qed.

Lemma filter_records_blank (sep : ascii) (lines : list string) :
  filter (λ r, r ≠ [])
    ((λ l, if String.eqb l "" then [] else split sep l) <$> lines)
  = split sep <$> filter (λ l, l ≠ "") lines.
Proof.
  induction lines as [|l lines IH]; [done|]. rewrite fmap_cons.
  destruct (String.eqb_spec l "") as [->|Hne].
  - rewrite filter_cons_False by auto. by rewrite filter_cons_False by auto.
  - rewrite filter_cons_True by apply split_not_nil.
    rewrite (filter_cons_True (λ l, l ≠ "")) by done.
    by rewrite fmap_cons, IH.
Qed.

(** The table of a text whose data lines are plain or empty. *)
Lemma aggregate_blank_or_plain (sep : ascii) (text header : string)
    (rows : list string) :
  sep ≠ NUL → splitlines text = header :: rows →
  plain sep header = true →
  Forall (λ l, l = "" ∨ plain sep l = true) rows →
  aggregate sep text
  = (foldl add_row ∅
       (DictReader_row (split sep header)
          <$> (split sep <$> filter (λ l, l ≠ "") rows)), None).
Proof.
  intros Hsep Hlines Hh Hrows.
  assert (records sep text
          = ((λ l, if String.eqb l "" then [] else split sep l) <$> header :: rows,
             None)) as Hrec.
  { unfold records, csv_reader.
    destruct (Ascii.eqb_spec sep NUL) as [|_]; [done|].
    rewrite Hlines. unfold parse_reset, new_reader. cbn [field field_len].
    rewrite Reader_iter_blank_or_plain.
    - by rewrite items_yields, raised_yields.
    - apply Forall_cons. split; [by right|done].
    - rewrite <-Hlines. apply splitlines_no_newline. }
  rewrite aggregate_records, Hrec. rewrite fmap_cons. cbn [fst snd].
  apply plain_inv in Hh as (Hne & _). apply String.eqb_neq in Hne.
  rewrite Hne. unfold table_of. by rewrite filter_records_blank.
Qed.

(** X2. Empty lines among the data lines count for nothing: a text and the
    text without them give the same table, and no exception, when the other
    lines are plain and the delimiter is not NUL. *)
Theorem X2_blank_lines_ignored (sep : ascii) (text text' header : string)
    (rows : list string) :
  sep ≠ NUL →
  splitlines text = header :: rows →
  splitlines text' = header :: filter (λ l, l ≠ "") rows →
  plain sep header = true →
  Forall (λ l, l = "" ∨ plain sep l = true) rows →
  aggregate sep text = aggregate sep text' ∧ (aggregate sep text).2 = None.
Proof.
  intros Hsep Hlines Hlines' Hh Hrows.
  rewrite (aggregate_blank_or_plain sep text header rows) by done.
  rewrite (aggregate_blank_or_plain sep text' header
             (filter (λ l, l ≠ "") rows)); try done.
  - split; [|done]. by rewrite list_filter_filter_l.
  - apply Forall_forall. intros l [Hne Hin]%list_elem_of_filter.
    rewrite Forall_forall in Hrows. by apply Hrows.
Qed.

(** X2, on a text with an empty line in the middle and one at the end. *)
Lemma X2_witness :
  let text := unlines nl ["zone|mean"; "1|12.5"; ""; "2|8.0"; ""] in
  let text' := unlines nl ["zone|mean"; "1|12.5"; "2|8.0"] in
  splitlines text = ["zone|mean"; "1|12.5"; ""; "2|8.0"; ""] ∧
  aggregate "|" text = aggregate "|" text' ∧ (aggregate "|" text).2 = None.
Proof.
  cbv zeta. split; [reflexivity|].
  apply (X2_blank_lines_ignored "|" _ _ "zone|mean" ["1|12.5"; ""; "2|8.0"; ""]);
    [done|reflexivity|reflexivity|reflexivity|].
  repeat constructor; by (left + right).
Defined.

(** ** Repeated names in the header *)

Lemma assign_last {X : Type} (g : X → key) (h : X → value)
    (l1 l2 : list X) (x : X) (d : dict) :
  g x ∉ g <$> l2 →
  dict_get (g x) (foldl (λ d x, dict_set (g x) (h x) d) d (l1 ++ x :: l2))
  = Some (h x).
Proof.
  intros Hout. rewrite foldl_app. cbn [foldl].
  rewrite (assign_other g h) by done.
  by rewrite dict_get_set, decide_True.
Qed.

(** Under a repeated name, a row holds the value at the name's last
    position. *)
Lemma DictReader_row_get_last (names row : list string) (i : nat)
    (name v : string) :
  names !! i = Some name → (∀ j, i < j → names !! j ≠ Some name) →
  row !! i = Some v →
  dict_get (Some name) (DictReader_row names row) = Some (VStr v).
Proof.
  intros Hi Hlast Hv.
  assert (dict_get (Some name)
            (foldl (λ d kv, dict_set (Some kv.1) (VStr kv.2) d) []
                   (zip names row)) = Some (VStr v)) as Hzip.
  { rewrite <-(take_drop_middle names i name Hi) at 1.
    rewrite <-(take_drop_middle row i v Hv) at 1.
    rewrite zip_with_app.
    2:{ rewrite !length_take.
        apply lookup_lt_Some in Hi, Hv. lia. }
    cbn [zip_with].
    apply (assign_last (λ kv : string * string, Some kv.1)
                       (λ kv : string * string, VStr kv.2) _ _ (name, v)).
    cbn [fst]. intros (j & Hj & _)%zip_key.
    rewrite lookup_drop in Hj. eapply (Hlast (S i + j)); [lia|done]. }
  unfold DictReader_row. cbv zeta.
  destruct (length names <? length row).
  { by rewrite dict_get_set, decide_False. }
  destruct (length row <? length names); [|done].
  rewrite (assign_other (λ k : string, Some k) (λ _, VNone)); [done|].
  intros (n & [= <-] & (j & Hj)%list_elem_of_lookup)%list_elem_of_fmap.
  rewrite lookup_drop in Hj. apply lookup_lt_Some in Hv.
  eapply (Hlast (length row + j)); [lia|done].
Qed.

(** A column of the table of a text made of plain lines, whatever the
    header's names. *)
Lemma column_plain_rows (sep : ascii) (text header : string)
    (rows : list string) (k : key) :
  sep ≠ NUL → splitlines text = header :: rows →
  forallb (plain sep) (header :: rows) = true →
  column (aggregate sep text).1 k
  = omap (λ row, dict_get k (DictReader_row (split sep header) (split sep row)))
         rows.
Proof.
  intros Hsep Hlines Hplain.
  rewrite (aggregate_plain sep text header rows) by done. cbn [fst].
  rewrite column_add_rows.
  2:{ apply Forall_fmap, Forall_forall. intros r _. apply DictReader_row_NoDup. }
  unfold column at 1. rewrite lookup_empty. cbn [app].
  clear Hlines Hplain. induction rows as [|row rows IH]; [done|].
  rewrite !fmap_cons. cbn [omap list_omap]. by rewrite IH.
Qed.

(** X3. When a name is repeated in the header, its column holds, row by
    row, the field at the name's last position; the fields at its earlier
    positions are lost. *)
Theorem X3_repeated_name_last_wins (sep : ascii) (text header : string)
    (rows : list string) (k i : nat) (row name v : string) :
  sep ≠ NUL → splitlines text = header :: rows →
  forallb (plain sep) (header :: rows) = true →
  rows !! k = Some row →
  split sep header !! i = Some name →
  (∀ j, i < j → split sep header !! j ≠ Some name) →
  split sep row !! i = Some v →
  column (aggregate sep text).1 (Some name) !! k = Some (VStr v) ∧
  length (column (aggregate sep text).1 (Some name)) = length rows.
Proof.
  intros Hsep Hlines Hplain Hk Hi Hlast Hv.
  rewrite (column_plain_rows sep text header rows) by done.
  assert (∀ r, is_Some (dict_get (Some name)
            (DictReader_row (split sep header) (split sep r)))) as Hsome.
  { intros r. apply DictReader_row_is_Some. by eapply list_elem_of_lookup_2. }
  split; [|by apply length_omap_total].
  rewrite (lookup_omap_total
             (λ row, dict_get (Some name)
                       (DictReader_row (split sep header) (split sep row)))
             _ k row) by done.
  by apply (DictReader_row_get_last _ _ i).
Qed.

(** X3, on a header that names [mean] twice. *)
Lemma X3_witness :
  let text := unlines nl ["mean|zone|mean"; "1|2|3"; "4|5|6"] in
  splitlines text = ["mean|zone|mean"; "1|2|3"; "4|5|6"] ∧
  column (aggregate "|" text).1 (Some "mean") !! 1 = Some (VStr "6") ∧
  length (column (aggregate "|" text).1 (Some "mean")) = 2.
Proof.
  cbv zeta. split; [reflexivity|].
  apply (X3_repeated_name_last_wins "|" _ "mean|zone|mean" ["1|2|3"; "4|5|6"]
           1 2 "4|5|6" "mean" "6");
    [done|reflexivity|reflexivity|reflexivity|reflexivity| |reflexivity].
  intros j Hj. destruct j as [|[|[|j]]]; try lia; done.
Defined.

(** ** An exception in the middle of the text *)

(** A line without special characters, one field of which is over the
    field size limit, makes the parser raise. *)
Lemma parse_line_over_limit (sep : ascii) (s : string) :
  ∀ st fs buf f r,
    st = IN_FIELD ∨ (st = START_FIELD ∧ buf = "") →
    contains DQUOTE s = false → contains NUL s = false →
    contains LF s = false → contains CR s = false →
    split sep s = f :: r →
    (N.of_nat (String.length buf) ≤ field_limit)%N →
    (field_limit < N.of_nat (String.length buf + String.length f))%N
    ∨ existsb (λ f, negb (within_limit f)) r = true →
    parse_line sep (mkReader st fs buf (N.of_nat (String.length buf))) s
    = Err csv_Error_field_larger_than_field_limit.
Proof.
  induction s as [|c s IH]; intros st fs buf f r Hst Hq Hn Hl Hc Hs Hbuf Hover.
  - injection Hs as <- <-. cbn in Hover. destruct Hover as [?|?]; [lia|done].
  - apply contains_cons_false in Hq as [Hq1 Hq], Hn as [Hn1 Hn],
      Hl as [Hl1 Hl], Hc as [Hc1 Hc].
    cbn [parse_line]. rewrite Hn1.
    cbn [split] in Hs. destruct (split_cons sep s) as (f' & r' & Hs').
    rewrite Hs' in Hs.
    assert (is_eol c = false) as Heol.
    { unfold is_eol. by rewrite Hl1, Hc1, Hn1. }
    destruct (Ascii.eqb c sep) eqn:Hsep.
    + injection Hs as <- <-.
      assert (parse_process_char sep
                (mkReader st fs buf (N.of_nat (String.length buf))) c
              = Ok (mkReader START_FIELD (fs ++ [String.rev buf]) ""
                      (N.of_nat (String.length "")))) as ->.
      { destruct Hst as [->|[-> ->]];
          unfold parse_process_char, start_field; cbn;
          by rewrite ?Heol, ?Hq1, ?Hsep. }
      cbn [mbind result_bind].
      apply (IH START_FIELD _ "" f' r'); try done; [by auto|].
      destruct Hover as [Hover|Hover]; [cbn in Hover; lia|].
      cbn [existsb] in Hover. apply orb_true_iff in Hover as [Hf|?]; [|by right].
      left. apply negb_true_iff, N.leb_gt in Hf. exact Hf.
    + injection Hs as <- <-. cbn [String.length] in Hover.
      destruct (field_limit <=? N.of_nat (String.length buf))%N eqn:Hfull.
      * assert (parse_process_char sep
                  (mkReader st fs buf (N.of_nat (String.length buf))) c
                = Err csv_Error_field_larger_than_field_limit) as ->; [|done].
        destruct Hst as [->|[-> ->]];
          unfold parse_process_char, start_field, parse_add_char; cbn;
          cbn in Hfull; by rewrite ?Heol, ?Hq1, ?Hsep, ?Hfull.
      * assert (parse_process_char sep
                  (mkReader st fs buf (N.of_nat (String.length buf))) c
                = Ok (mkReader IN_FIELD fs (String c buf)
                        (N.of_nat (String.length (String c buf))))) as ->.
        { cbn [String.length]. rewrite Nat2N.inj_succ.
          destruct Hst as [->|[-> ->]];
            unfold parse_process_char, start_field, parse_add_char; cbn;
            cbn in Hfull; by rewrite ?Heol, ?Hq1, ?Hsep, ?Hfull. }
        cbn [mbind result_bind]. apply N.leb_gt in Hfull.
        apply (IH IN_FIELD fs (String c buf) f' r'); try done; [by auto| |].
        -- cbn [String.length]. lia.
        -- destruct Hover as [Hover|?]; [left|by right].
           cbn [String.length]. lia.
Qed.

Lemma Reader_iter_plain_app (sep : ascii) (lines more : list string) :
  forallb (plain sep) lines = true →
  Forall (λ l, contains LF l = false ∧ contains CR l = false) lines →
  Reader_iter sep (mkReader START_RECORD [] "" 0) (lines ++ more)
  = yield_all (split sep <$> lines)
      (Reader_iter sep (mkReader START_RECORD [] "" 0) more).
Proof.
  induction lines as [|line lines IH]; intros Hp Hnl; [done|].
  cbn [forallb] in Hp. apply andb_true_iff in Hp as [Hp1 Hp].
  apply Forall_cons in Hnl as [[Hl Hc] Hnl].
  cbn [app Reader_iter]. rewrite parse_line_record by done.
  cbn [state fields]. unfold parse_reset. cbn [field field_len].
  by rewrite IH.
Qed.

Lemma items_yield_all {A} (l : list A) (it : iterator A) :
  items (yield_all l it) = l ++ items it.
Proof.
  induction l as [|a l IH]; [done|]. cbn [yield_all foldr items app].
  by f_equal.
Qed.

Lemma raised_yield_all {A} (l : list A) (it : iterator A) :
  raised (yield_all l it) = raised it.
Proof. by induction l. Qed.

(** X4. When a line has a field over the field size limit, the loop ends
    with the reader's exception and [columns] is left holding the table of
    the lines before it: the rows read so far stay visible. *)
Theorem X4_exception_leaves_rows_read (sep : ascii) (text text0 header bad : string)
    (rows rest : list string) :
  sep ≠ NUL →
  splitlines text = header :: rows ++ bad :: rest →
  splitlines text0 = header :: rows →
  forallb (plain sep) (header :: rows) = true →
  contains DQUOTE bad = false → contains NUL bad = false →
  existsb (λ f, negb (within_limit f)) (split sep bad) = true →
  aggregate sep text
  = ((aggregate sep text0).1, Some csv_Error_field_larger_than_field_limit).
Proof.
  intros Hsep Hlines Hlines0 Hplain Hq Hn Hover.
  pose proof (splitlines_no_newline text) as Hnl. rewrite Hlines in Hnl.
  change (header :: rows ++ bad :: rest)
    with ((header :: rows) ++ bad :: rest) in Hnl.
  apply Forall_app in Hnl as [Hnl1 Hnl2].
  apply Forall_cons in Hnl2 as [[Hl Hc] _].
  assert (Reader_iter sep (mkReader START_RECORD [] "" 0) (bad :: rest)
          = Raise csv_Error_field_larger_than_field_limit) as Hbad.
  { cbn [Reader_iter].
    destruct (split_cons sep bad) as (f & r & Hs).
    assert (parse_line sep (mkReader START_RECORD [] "" 0) bad
            = Err csv_Error_field_larger_than_field_limit) as ->; [|done].
    rewrite <-(parse_line_over_limit sep bad START_FIELD [] "" f r); auto.
    - destruct bad as [|c bad]; [by injection Hs as <- <-|].
      apply contains_cons_false in Hn as [Hn1 _], Hl as [Hl1 _], Hc as [Hc1 _].
      cbn [parse_line]. rewrite Hn1.
      unfold parse_process_char at 1. cbn [state]. by rewrite Hn1, Hl1, Hc1.
    - done.
    - rewrite Hs in Hover. cbn [existsb] in Hover.
      apply orb_true_iff in Hover as [Hf|?]; [|by right].
      left. apply negb_true_iff, N.leb_gt in Hf. exact Hf. }
  rewrite (aggregate_plain sep text0 header rows) by done. cbn [fst].
  rewrite aggregate_records. unfold records, csv_reader.
  destruct (Ascii.eqb_spec sep NUL) as [|_]; [done|].
  rewrite Hlines. unfold parse_reset, new_reader. cbn [field field_len].
  change (header :: rows ++ bad :: rest) with ((header :: rows) ++ bad :: rest).
  rewrite Reader_iter_plain_app, Hbad by done.
  rewrite items_yield_all, raised_yield_all. cbn [items raised fst snd].
  rewrite app_nil_r, fmap_cons. unfold table_of.
  by rewrite filter_split_nonempty.
Qed.

(** X4, on a text whose third line is one field of 131073 characters. *)
Lemma X4_witness :
  aggregate "|" (unlines nl ["zone|mean"; "1|12.5"; long_field; "2|8.0"])
  = ((aggregate "|" (unlines nl ["zone|mean"; "1|12.5"])).1,
     Some csv_Error_field_larger_than_field_limit) ∧
  (aggregate "|" (unlines nl ["zone|mean"; "1|12.5"])).1
  = {[ Some "zone" := [VStr "1"]; Some "mean" := [VStr "12.5"] ]}.
Proof.
  split; [|vm_compute; reflexivity].
  refine (X4_exception_leaves_rows_read "|"
            (unlines nl ["zone|mean"; "1|12.5"; long_field; "2|8.0"])
            (unlines nl ["zone|mean"; "1|12.5"])
            "zone|mean" long_field ["1|12.5"] ["2|8.0"] _ _ _ _ _ _ _).
  - done.
  - apply (splitlines_unlines_nl ["zone|mean"; "1|12.5"; long_field; "2|8.0"]).
    vm_compute. reflexivity.
  - reflexivity.
  - reflexivity.
  - vm_compute. reflexivity.
  - vm_compute. reflexivity.
  - vm_compute. reflexivity.
Defined.

(** ** The lookups after the loop *)

Lemma getitem_fst (k : key) (cols : table) : (getitem k cols).1 = column cols k.
Proof. unfold getitem, column. by destruct (cols !! k). Qed.

Lemma column_getitem (k k' : key) (cols : table) :
  column (getitem k cols).2 k' = column cols k'.
Proof.
  unfold getitem, column. destruct (cols !! k) eqn:Hk; [done|]. cbn [snd].
  destruct (decide (k = k')) as [<-|Hne].
  - by rewrite lookup_insert_eq, Hk.
  - by rewrite lookup_insert_ne.
Qed.

Lemma dom_getitem (k : key) (cols : table) :
  dom (getitem k cols).2 = {[ k ]} ∪ dom cols.
Proof.
  unfold getitem. destruct (cols !! k) eqn:Hk; cbn [snd].
  - apply elem_of_dom_2 in Hk. symmetry.
    by apply subseteq_union_1_L, singleton_subseteq_l.
  - by rewrite dom_insert_L.
Qed.

Lemma column_looked_up (names : list string) (cols : table) (k : key) :
  column (looked_up names cols) k = column cols k.
Proof.
  unfold looked_up. revert cols.
  induction names as [|name names IH]; intros cols; [done|].
  cbn [foldl]. by rewrite IH, column_getitem.
Qed.

Lemma dom_looked_up (names : list string) (cols : table) :
  dom (looked_up names cols) = list_to_set (Some <$> names) ∪ dom cols.
Proof.
  unfold looked_up. revert cols.
  induction names as [|name names IH]; intros cols; cbn [foldl].
  - cbn. by rewrite (left_id_L ∅ (∪)).
  - rewrite IH, dom_getitem, fmap_cons. cbn [list_to_set].
    rewrite (assoc_L (∪)). f_equal. apply (comm_L (∪)).
Qed.

(** The three lines after the loop, in terms of what the columns read
    before them. *)
Lemma conversion_spec {float32 : Type} (nan : float32)
    (float : string → option float32) (k : @kernel float32) :
  conversion nan float k
  = match np_array_float32 nan float (column (columns k) (Some "mean")) with
    | Err e =>
        (mkKernel (looked_up ["zone"; "mean"] (columns k))
                  (column (columns k) (Some "zone")) (means k) (stddevs k),
         Some e)
    | Ok means' =>
        match np_array_float32 nan float (column (columns k) (Some "stddev")) with
        | Err e =>
            (mkKernel (looked_up ["zone"; "mean"; "stddev"] (columns k))
                      (column (columns k) (Some "zone")) means' (stddevs k),
             Some e)
        | Ok stddevs' =>
            (mkKernel (looked_up ["zone"; "mean"; "stddev"] (columns k))
                      (column (columns k) (Some "zone")) means' stddevs',
             None)
        end
    end.
Proof.
  unfold conversion, looked_up. cbn [foldl].
  rewrite (surjective_pairing (getitem (Some "zone") (columns k))).
  rewrite (surjective_pairing (getitem (Some "mean") _)).
  rewrite (surjective_pairing (getitem (Some "stddev") _)).
  rewrite !getitem_fst, !column_getitem. done.
Qed.

(** X5. The lookups after the loop leave every column reading what it
    read before, keep the keys the table had, always bind [zone] and
    [mean], and when the conversions succeed bind [stddev] as well and
    nothing else. *)
Theorem X5_lookups_keep_columns {float32 : Type} (nan : float32)
    (float : string → option float32) (k : @kernel float32) :
  (∀ key, column (columns (conversion nan float k).1) key = column (columns k) key) ∧
  dom (columns k) ⊆ dom (columns (conversion nan float k).1) ∧
  Some "zone" ∈ dom (columns (conversion nan float k).1) ∧
  Some "mean" ∈ dom (columns (conversion nan float k).1) ∧
  ((conversion nan float k).2 = None →
   dom (columns (conversion nan float k).1)
   = {[ Some "zone"; Some "mean"; Some "stddev" ]} ∪ dom (columns k)).
Proof.
  rewrite conversion_spec.
  destruct (np_array_float32 nan float (column (columns k) (Some "mean")));
    [destruct (np_array_float32 nan float (column (columns k) (Some "stddev")))|];
    cbn [fst snd columns]; rewrite !dom_looked_up; cbn [fmap list_fmap list_to_set];
    (split_and!; [intros key; apply column_looked_up|set_solver..]).
Qed.

(** ** The whole cell *)

Lemma cell_spec {float32 : Type} (nan : float32)
    (float : string → option float32) (sep : ascii) (text : string)
    (k : @kernel float32) :
  cell nan float sep text k
  = match (aggregate sep text).2 with
    | Some e =>
        (mkKernel (aggregate sep text).1 (watersheds k) (means k) (stddevs k),
         Some e)
    | None =>
        conversion nan float
          (mkKernel (aggregate sep text).1 (watersheds k) (means k) (stddevs k))
    end.
Proof.
  unfold cell, aggregator. by destruct (aggregate sep text) as [cols [e|]].
Qed.

(** What a cell that completed has bound. *)
Lemma cell_completed {float32 : Type} (nan : float32)
    (float : string → option float32) (sep : ascii) (text : string)
    (k k' : @kernel float32) :
  cell nan float sep text k = (k', None) →
  (aggregate sep text).2 = None ∧
  columns k' = looked_up ["zone"; "mean"; "stddev"] (aggregate sep text).1 ∧
  watersheds k' = column (aggregate sep text).1 (Some "zone") ∧
  np_array_float32 nan float (column (aggregate sep text).1 (Some "mean"))
  = Ok (means k') ∧
  np_array_float32 nan float (column (aggregate sep text).1 (Some "stddev"))
  = Ok (stddevs k').
Proof.
  rewrite cell_spec. destruct (aggregate sep text).2; [done|].
  rewrite conversion_spec. cbn [columns means stddevs].
  destruct (np_array_float32 nan float (column _ (Some "mean"))); [|done].
  destruct (np_array_float32 nan float (column _ (Some "stddev"))); [|done].
  by intros [= <-].
Qed.

Lemma cell_completes {float32 : Type} (nan : float32)
    (float : string → option float32) (sep : ascii) (text : string)
    (k : @kernel float32) (ms ss : list float32) :
  (aggregate sep text).2 = None →
  np_array_float32 nan float (column (aggregate sep text).1 (Some "mean")) = Ok ms →
  np_array_float32 nan float (column (aggregate sep text).1 (Some "stddev")) = Ok ss →
  cell nan float sep text k
  = (mkKernel (looked_up ["zone"; "mean"; "stddev"] (aggregate sep text).1)
              (column (aggregate sep text).1 (Some "zone")) ms ss, None).
Proof.
  intros Hnone Hm Hs. rewrite cell_spec, Hnone, conversion_spec.
  cbn [columns means stddevs]. by rewrite Hm, Hs.
Qed.

(** Without lines there is no table either. *)
Lemma aggregate_no_line (sep : ascii) (text : string) :
  splitlines text = [] → (aggregate sep text).1 = ∅.
Proof.
  intros Hlines. unfold aggregate, csv_reader. cbv zeta. rewrite Hlines.
  by destruct (Ascii.eqb sep NUL).
Qed.

(** X6. After a header alone, or no line at all, on which the reader does
    not raise, the cell completes: it binds three empty sequences, and the
    table it leaves has exactly the three names it looked up as keys, each
    bound to the empty sequence, whatever names the header has. *)
Theorem X6_cell_without_rows {float32 : Type} (nan : float32)
    (float : string → option float32) (sep : ascii) (text : string)
    (k : @kernel float32) :
  length (splitlines text) ≤ 1 →
  (aggregate sep text).2 = None →
  cell nan float sep text k
  = (mkKernel {[ Some "zone" := []; Some "mean" := []; Some "stddev" := [] ]}
              [] [] [], None).
Proof.
  intros Hlen Hnone.
  assert ((aggregate sep text).1 = ∅) as Hempty.
  { destruct (splitlines text) as [|header [|? ?]] eqn:Hlines.
    - by apply aggregate_no_line.
    - by apply (aggregate_header_only sep text header).
    - cbn in Hlen. lia. }
  by rewrite (cell_completes nan float sep text k [] []); rewrite ?Hempty.
Qed.

(** X6, on the header [a|b] alone. *)
Lemma X6_witness :
  cell Decimal.NaN Decimal.float "|" "a|b" (mkKernel ∅ [VStr "old"] [] [])
  = (mkKernel {[ Some "zone" := []; Some "mean" := []; Some "stddev" := [] ]}
              [] [] [], None).
Proof.
  apply (X6_cell_without_rows Decimal.NaN Decimal.float "|" "a|b");
    [vm_compute; lia|reflexivity].
Defined.

Lemma convert_items_Forall2 {float32 : Type} (nan : float32)
    (float : string → option float32) (l : list value) (a : list float32) :
  convert_items nan float l = Ok a
  ↔ Forall2 (λ v x, FLOAT_setitem nan float v = Ok x) l a.
Proof.
  revert a. induction l as [|v l IH]; intros a; cbn [convert_items].
  - split; [by intros [= <-]|by intros ->%Forall2_nil_inv_l].
  - destruct (FLOAT_setitem nan float v) as [x|e] eqn:Hv; cbn [mbind result_bind].
    + destruct (convert_items nan float l) as [xs|e] eqn:Hl; cbn [mbind result_bind].
      * split.
        -- intros [= <-]. apply Forall2_cons; split; [done|by apply IH].
        -- intros (y & ys & Hy & Hys & ->)%Forall2_cons_inv_l.
           apply IH in Hys. congruence.
      * split; [done|].
        intros (y & ys & Hy & Hys & ->)%Forall2_cons_inv_l.
        by apply IH in Hys.
    + split; [done|].
      intros (y & ys & Hy & Hys & ->)%Forall2_cons_inv_l. congruence.
Qed.

Lemma np_array_float32_Ok {float32 : Type} (nan : float32)
    (float : string → option float32) (l : list value) (a : list float32) :
  np_array_float32 nan float l = Ok a →
  Forall2 (λ v x, FLOAT_setitem nan float v = Ok x) l a.
Proof.
  unfold np_array_float32. destruct (existsb is_list l); [done|].
  apply convert_items_Forall2.
Qed.

(** The length of a column: the number of rows under a name of the
    header, nothing under another name. *)
Lemma length_column (sep : ascii) (text name : string) :
  length (column (aggregate sep text).1 (Some name))
  = if decide (name ∈ fieldnames sep text) then row_count sep text else 0.
Proof.
  case_decide as Hin.
  - unfold fieldnames in Hin. unfold row_count.
    rewrite aggregate_records. cbn [fst].
    destruct (records sep text).1 as [|names recs]; [by apply elem_of_nil in Hin|].
    rewrite column_table_of. cbn [tail].
    apply length_omap_total. intros r. by apply DictReader_row_is_Some.
  - unfold column. by rewrite lookup_aggregate_absent.
Qed.

(** X7. When the cell completes, each of [watersheds], [means] and
    [stddevs] has one entry per row read if its column's name is a name of
    the header, and none otherwise, short and long rows included. So the
    bar positions, [np.arange(len(watersheds))], are as many as the bar
    heights [means] exactly when [zone] and [mean] are both names of the
    header, or neither is, or no row was read. *)
Theorem X7_lengths_of_bound_sequences {float32 : Type} (nan : float32)
    (float : string → option float32) (sep : ascii) (text : string)
    (k k' : @kernel float32) :
  cell nan float sep text k = (k', None) →
  let n name := if decide (name ∈ fieldnames sep text)
                then row_count sep text else 0 in
  length (watersheds k') = n "zone" ∧
  length (means k') = n "mean" ∧
  length (stddevs k') = n "stddev" ∧
  (length (np_arange (length (watersheds k'))) = length (means k')
   ↔ n "zone" = n "mean").
Proof.
  intros (_ & _ & Hz & Hm & Hs)%cell_completed. cbv zeta.
  apply np_array_float32_Ok, Forall2_length in Hm, Hs.
  rewrite length_column in Hm, Hs.
  assert (length (watersheds k')
          = if decide ("zone" ∈ fieldnames sep text)
            then row_count sep text else 0) as Hw
    by (by rewrite Hz, length_column).
  split_and!; [done|done|done|].
  unfold np_arange. rewrite length_seq, Hw, <-Hm. done.
Qed.

(** X7, on a text whose header misspells [zone]: there are two bar
    heights and no bar position. *)
Lemma X7_witness :
  let text := unlines nl ["zoen|mean|stddev"; "1|12.5|3.2"; "2|8.0|1.1"] in
  let run := cell Decimal.NaN Decimal.float "|" text (mkKernel ∅ [] [] []) in
  run.2 = None ∧
  length (watersheds run.1) = 0 ∧ length (means run.1) = 2 ∧
  length (stddevs run.1) = 2.
Proof.
  cbv zeta.
  destruct (X7_lengths_of_bound_sequences Decimal.NaN Decimal.float "|"
              (unlines nl ["zoen|mean|stddev"; "1|12.5|3.2"; "2|8.0|1.1"])
              (mkKernel ∅ [] [] [])
              (cell Decimal.NaN Decimal.float "|"
                 (unlines nl ["zoen|mean|stddev"; "1|12.5|3.2"; "2|8.0|1.1"])
                 (mkKernel ∅ [] [] [])).1)
    as (Hw & Hm & Hs & _); [vm_compute; reflexivity|].
  split_and!; [vm_compute; reflexivity|exact Hw|exact Hm|exact Hs].
Defined.

(** X8. A data line that stops before the [mean] column, or before the
    [stddev] column, does not stop the cell: where the conversion
    succeeds, the number of that line is NaN in [means], or in [stddevs]. *)
Theorem X8_missing_field_becomes_nan {float32 : Type} (nan : float32)
    (float : string → option float32) (sep : ascii) (text header : string)
    (rows : list string) (j : nat) (row : string) (k k' : @kernel float32) :
  sep ≠ NUL → splitlines text = header :: rows →
  forallb (plain sep) (header :: rows) = true →
  NoDup (split sep header) →
  rows !! j = Some row →
  cell nan float sep text k = (k', None) →
  (∀ i, split sep header !! i = Some "mean" → length (split sep row) ≤ i →
        means k' !! j = Some nan) ∧
  (∀ i, split sep header !! i = Some "stddev" → length (split sep row) ≤ i →
        stddevs k' !! j = Some nan).
Proof.
  intros Hsep Hlines Hplain Hnd Hj (_ & _ & _ & Hm & Hs)%cell_completed.
  apply np_array_float32_Ok in Hm, Hs.
  assert (∀ name i (a : list float32),
            Forall2 (λ v x, FLOAT_setitem nan float v = Ok x)
                    (column (aggregate sep text).1 (Some name)) a →
            split sep header !! i = Some name → length (split sep row) ≤ i →
            a !! j = Some nan) as Hnan.
  { intros name i a Ha Hi Hshort.
    rewrite (column_plain sep text header rows i name) in Ha by done.
    destruct (Forall2_lookup_l _ _ _ j VNone Ha) as (x & Hx & Hv).
    - rewrite list_lookup_fmap, Hj. cbn.
      by rewrite (proj2 (lookup_ge_None _ _)).
    - cbn in Hv. congruence. }
  split; intros i Hi Hshort; by eapply Hnan.
Qed.

(** X8, on a second data line that has a zone only. *)
Lemma X8_witness :
  let text := unlines nl ["zone|mean|stddev"; "1|12.5|3.2"; "2"] in
  let run := cell Decimal.NaN Decimal.float "|" text (mkKernel ∅ [] [] []) in
  run.2 = None ∧ means run.1 !! 1 = Some Decimal.NaN ∧
  stddevs run.1 !! 1 = Some Decimal.NaN.
Proof.
  cbv zeta.
  destruct (X8_missing_field_becomes_nan Decimal.NaN Decimal.float "|"
              (unlines nl ["zone|mean|stddev"; "1|12.5|3.2"; "2"])
              "zone|mean|stddev" ["1|12.5|3.2"; "2"] 1 "2"
              (mkKernel ∅ [] [] [])
              (cell Decimal.NaN Decimal.float "|"
                 (unlines nl ["zone|mean|stddev"; "1|12.5|3.2"; "2"])
                 (mkKernel ∅ [] [] [])).1)
    as [Hm Hs];
    [done|reflexivity|reflexivity|compute_done|reflexivity
    |vm_compute; reflexivity|].
  split_and!; [vm_compute; reflexivity| |].
  - apply (Hm 1); [reflexivity|vm_compute; lia].
  - apply (Hs 2); [reflexivity|vm_compute; lia].
Defined.

(** X9. End to end: for a well-formed input made of plain lines whose
    header has the distinct names [zone], [mean] and [stddev] among its
    names, and whose [mean] and [stddev] fields all parse as numbers, the
    cell completes; [watersheds] holds the [zone] field of every data line,
    [means] the number of its [mean] field and [stddevs] the number of its
    [stddev] field, in the order of the lines. *)
Theorem X9_cell_end_to_end {float32 : Type} (nan : float32)
    (float : string → option float32) (sep : ascii) (text header : string)
    (rows : list string) (iz im isd : nat) (k : @kernel float32) :
  sep ≠ NUL → splitlines text = header :: rows →
  forallb (plain sep) (header :: rows) = true →
  well_formed sep header rows →
  split sep header !! iz = Some "zone" →
  split sep header !! im = Some "mean" →
  split sep header !! isd = Some "stddev" →
  (∀ row v, row ∈ rows →
     split sep row !! im = Some v ∨ split sep row !! isd = Some v →
     is_Some (float v)) →
  ∃ k', cell nan float sep text k = (k', None) ∧
    Forall2 (λ row w, ∃ v, split sep row !! iz = Some v ∧ w = VStr v)
            rows (watersheds k') ∧
    Forall2 (λ row x, ∃ v, split sep row !! im = Some v ∧ float v = Some x)
            rows (means k') ∧
    Forall2 (λ row x, ∃ v, split sep row !! isd = Some v ∧ float v = Some x)
            rows (stddevs k').
Proof.
  intros Hsep Hlines Hplain [Hnd Hlen] Hz Hm Hs Hparse.
  rewrite Forall_forall in Hlen.
  assert (∀ i name row, split sep header !! i = Some name → row ∈ rows →
            is_Some (split sep row !! i)) as Hfield.
  { intros i name row Hi Hrow. apply lookup_lt_is_Some_2.
    rewrite (Hlen row Hrow). by eapply lookup_lt_Some. }
  assert (∀ i name, split sep header !! i = Some name →
            (∀ row v, row ∈ rows → split sep row !! i = Some v →
                      is_Some (float v)) →
            ∃ a, np_array_float32 nan float
                   (column (aggregate sep text).1 (Some name)) = Ok a ∧
                 Forall2 (λ row x, ∃ v, split sep row !! i = Some v ∧
                                        float v = Some x) rows a) as Hconv.
  { intros i name Hi Hok.
    destruct (convert_items_Ok nan float
                (column (aggregate sep text).1 (Some name))) as (a & Ha & _).
    { apply column_named_flat. }
    { rewrite (column_plain sep text header rows i name) by done.
      intros s (row & Hs' & Hrow)%list_elem_of_fmap.
      destruct (Hfield i name row Hi Hrow) as [v Hv]. rewrite Hv in Hs'.
      injection Hs' as ->. by eapply Hok. }
    exists a. unfold np_array_float32. rewrite column_named_flat.
    split; [done|]. apply convert_items_Forall2 in Ha.
    rewrite (column_plain sep text header rows i name) in Ha by done.
    apply Forall2_fmap_l in Ha.
    apply Forall2_same_length_lookup. split; [by eapply Forall2_length|].
    intros n row x Hrow Hx.
    pose proof (Forall2_lookup_lr _ _ _ _ _ _ Ha Hrow Hx) as Hset.
    destruct (Hfield i name row Hi) as [v Hv];
      [by eapply list_elem_of_lookup_2|].
    unfold compose in Hset. rewrite Hv in Hset. cbn in Hset.
    exists v. split; [done|].
    by destruct (float v); simplify_eq. }
  destruct (Hconv im "mean" Hm) as (ms & Hms & Hms2); [by eauto|].
  destruct (Hconv isd "stddev" Hs) as (ss & Hss & Hss2); [by eauto|].
  eexists. split.
  - apply (cell_completes nan float sep text k ms ss); [|done..].
    by rewrite (aggregate_plain sep text header rows).
  - cbn [watersheds means stddevs]. split_and!; [|done..].
    rewrite (column_plain sep text header rows iz "zone") by done.
    apply Forall2_fmap_r, Forall2_same_length_lookup. split; [done|].
    intros n row row' Hrow Hrow'. assert (row' = row) as -> by congruence.
    destruct (Hfield iz "zone" row Hz) as [v Hv];
      [by eapply list_elem_of_lookup_2|].
    exists v. by rewrite Hv.
Qed.

(** X9, on the scenario of the specification. *)
Lemma X9_witness :
  let text := unlines nl ["zone|mean|stddev"; "1|12.5|3.2"; "2|8.0|1.1"] in
  ∃ k', cell Decimal.NaN Decimal.float "|" text (mkKernel ∅ [] [] []) = (k', None) ∧
    Forall2 (λ row w, ∃ v, split "|" row !! 0 = Some v ∧ w = VStr v)
            ["1|12.5|3.2"; "2|8.0|1.1"] (watersheds k') ∧
    Forall2 (λ row x, ∃ v, split "|" row !! 1 = Some v ∧ Decimal.float v = Some x)
            ["1|12.5|3.2"; "2|8.0|1.1"] (means k') ∧
    Forall2 (λ row x, ∃ v, split "|" row !! 2 = Some v ∧ Decimal.float v = Some x)
            ["1|12.5|3.2"; "2|8.0|1.1"] (stddevs k').
Proof.
  cbv zeta.
  apply (X9_cell_end_to_end Decimal.NaN Decimal.float "|" _ "zone|mean|stddev"
           ["1|12.5|3.2"; "2|8.0|1.1"] 0 1 2);
    [done|reflexivity|reflexivity| |reflexivity..|].
  - split; [compute_done|]. repeat constructor.
  - intros row v Hrow Hv.
    apply elem_of_cons in Hrow as [->|Hrow];
      [|apply elem_of_cons in Hrow as [->|Hrow]; [|by apply elem_of_nil in Hrow]];
      destruct Hv as [[= <-]|[= <-]]; by eexists.
Defined.

(** ** The set-up lines *)

Lemma lstrip_app_space (w s : string) :
  all_space w = true → lstrip (w +:+ s) = lstrip s.
Proof.
  induction w as [|c w IH]; [done|]. cbn [all_space].
  intros [Hc Hw]%andb_true_iff.
  change (String c w +:+ s) with (String c (w +:+ s)).
  cbn [lstrip]. rewrite Hc. by apply IH.
Qed.

Lemma lstrip_all_space (w : string) : all_space w = true → lstrip w = "".
Proof.
  intros Hw. rewrite <-(string_app_nil_r w). by rewrite lstrip_app_space.
Qed.

Lemma lstrip_app (s w : string) :
  lstrip (s +:+ w) = if all_space s then lstrip w else lstrip s +:+ w.
Proof.
  induction s as [|c s IH]; [done|].
  change (String c s +:+ w) with (String c (s +:+ w)).
  cbn [lstrip all_space]. by destruct (isspace c).
Qed.

Lemma rstrip_all_space (w : string) : all_space w = true → rstrip w = "".
Proof.
  induction w as [|c w IH]; [done|]. cbn [all_space rstrip].
  intros [Hc Hw]%andb_true_iff. by rewrite IH, Hc.
Qed.

Lemma rstrip_app_space (s w : string) :
  all_space w = true → rstrip (s +:+ w) = rstrip s.
Proof.
  intros Hw. induction s as [|c s IH]; [by apply rstrip_all_space|].
  change (String c s +:+ w) with (String c (s +:+ w)).
  cbn [rstrip]. by rewrite IH.
Qed.

(** White space around a string does not change what [strip] returns. *)
Lemma strip_around (w1 s w2 : string) :
  all_space w1 = true → all_space w2 = true →
  strip (w1 +:+ s +:+ w2) = strip s.
Proof.
  intros Hw1 Hw2. unfold strip.
  rewrite lstrip_app_space by done. rewrite lstrip_app.
  destruct (all_space s) eqn:Hs.
  - by rewrite !lstrip_all_space.
  - by rewrite rstrip_app_space.
Qed.

(** What [lstrip] and [rstrip] drop is white space, at one end. *)
Lemma lstrip_split (s : string) :
  ∃ w, all_space w = true ∧ s = w +:+ lstrip s.
Proof.
  induction s as [|c s (w & Hw & IH)]; [by exists ""|].
  cbn [lstrip]. destruct (isspace c) eqn:Hc; [|by exists ""].
  exists (String c w). split; [by cbn [all_space]; rewrite Hc|].
  change (String c s = String c (w +:+ lstrip s)). by rewrite <-IH.
Qed.

Lemma rstrip_split (s : string) :
  ∃ w, all_space w = true ∧ s = rstrip s +:+ w.
Proof.
  induction s as [|c s (w & Hw & IH)]; [by exists ""|].
  cbn [rstrip]. destruct (rstrip s) as [|c' r] eqn:Hr.
  - change (s = w) in IH. subst w. destruct (isspace c) eqn:Hc.
    + exists (String c s). split; [by cbn [all_space]; rewrite Hc|done].
    + by exists s.
  - exists w. split; [done|].
    change (String c s = String c (String c' r +:+ w)). by rewrite <-IH.
Qed.

(** What they return has no white space at that end. *)
Lemma lstrip_starts (s : string) : startswith_space (lstrip s) = false.
Proof.
  induction s as [|c s IH]; [done|]. cbn [lstrip].
  by destruct (isspace c) eqn:Hc.
Qed.

Lemma rstrip_ends (s : string) : endswith_space (rstrip s) = false.
Proof.
  induction s as [|c s IH]; [done|]. cbn [rstrip].
  destruct (rstrip s) as [|c' r]; [by destruct (isspace c) eqn:Hc|done].
Qed.

Lemma rstrip_starts (s : string) :
  startswith_space s = false → startswith_space (rstrip s) = false.
Proof.
  destruct s as [|c s]; [done|]. cbn [startswith_space rstrip]. intros Hc.
  destruct (rstrip s); by rewrite ?Hc.
Qed.

(** A string without white space at its ends is returned as it is. *)
Lemma lstrip_trimmed (s : string) : startswith_space s = false → lstrip s = s.
Proof. destruct s as [|c s]; [done|]. cbn. by intros ->. Qed.

Lemma rstrip_trimmed (s : string) : endswith_space s = false → rstrip s = s.
Proof.
  induction s as [|c s IH]; [done|]. cbn [rstrip].
  destruct s as [|c' s]; [by cbn; intros ->|].
  intros Hs. by rewrite IH.
Qed.

Lemma trimmed_inv (s : string) :
  trimmed s = true → startswith_space s = false ∧ endswith_space s = false.
Proof.
  unfold trimmed. by rewrite andb_true_iff, !negb_true_iff.
Qed.

Lemma strip_trimmed (s : string) : trimmed s = true → strip s = s.
Proof.
  intros [Hs He]%trimmed_inv. unfold strip.
  by rewrite lstrip_trimmed, rstrip_trimmed.
Qed.

(** X10. [strip] returns its argument without the white space around it,
    and nothing else is dropped or changed: every string is some white
    space, then what [strip] returns for it, then some white space again,
    and what [strip] returns neither begins nor ends with a white-space
    character. Conversely a string that neither begins nor ends with a
    white-space character is what [strip] returns for it with any white
    space put around it, such as the newline that ends what a command
    prints. *)
Theorem X10_strip (s : string) :
  (trimmed (strip s) = true ∧
   ∃ w1 w2, all_space w1 = true ∧ all_space w2 = true ∧
            s = w1 +:+ strip s +:+ w2) ∧
  (∀ w1 w2, all_space w1 = true → all_space w2 = true → trimmed s = true →
            strip (w1 +:+ s +:+ w2) = s).
Proof.
  split_and!.
  - unfold trimmed, strip.
    by rewrite rstrip_starts, rstrip_ends by apply lstrip_starts.
  - destruct (lstrip_split s) as (w1 & Hw1 & H1).
    destruct (rstrip_split (lstrip s)) as (w2 & Hw2 & H2).
    exists w1, w2. split_and!; [done..|]. unfold strip. by rewrite <-H2.
  - intros w1 w2 Hw1 Hw2 Hs. rewrite strip_around by done.
    by apply strip_trimmed.
Qed.

(** X10, on a path printed with spaces before it and a newline after it,
    and on a string with white space inside. *)
Lemma X10_witness :
  strip ("  " +:+ "/usr/lib/grass" +:+ nl) = "/usr/lib/grass" ∧
  strip (" a b" +:+ nl) = "a b".
Proof.
  split.
  - destruct (X10_strip "/usr/lib/grass") as [_ H].
    apply (H "  " nl); reflexivity.
  - destruct (X10_strip "a b") as [_ H].
    apply (H " " nl); reflexivity.
Defined.

Lemma endswith_sep_app (s t : string) :
  t ≠ "" → endswith_sep (s +:+ t) = endswith_sep t.
Proof.
  intros Ht. induction s as [|c s IH]; [done|].
  change (String c s +:+ t) with (String c (s +:+ t)).
  cbn [endswith_sep]. destruct (s +:+ t) eqn:Hst; [|done].
  destruct s; [by cbn in Hst|done].
Qed.

(** The translation of newlines keeps white space white space, and leaves
    a stretch without CR as it is. *)
Lemma all_space_translate (w : string) (after_cr : bool) :
  all_space w = true → all_space (translate_scan after_cr w) = true.
Proof.
  revert after_cr. induction w as [|c w IH]; intros after_cr; [done|].
  cbn [all_space translate_scan]. intros [Hc Hw]%andb_true_iff.
  destruct (after_cr && Ascii.eqb c LF); [by apply IH|].
  destruct (Ascii.eqb c CR); cbn [all_space]; rewrite IH by done;
    [done|by rewrite Hc].
Qed.

Lemma translate_no_CR (s w : string) :
  contains CR s = false →
  translate_scan false (s +:+ w) = s +:+ translate_scan false w.
Proof.
  induction s as [|c s IH]; [done|]. intros [Hc Hs]%contains_cons_false.
  change (String c s +:+ w) with (String c (s +:+ w)).
  cbn [translate_scan andb]. rewrite Hc.
  change (String c s +:+ translate_scan false w)
    with (String c (s +:+ translate_scan false w)).
  by rewrite IH.
Qed.

Lemma all_space_app (w1 w2 : string) :
  all_space (w1 +:+ w2) = all_space w1 && all_space w2.
Proof.
  induction w1 as [|c w1 IH]; [done|].
  change (String c w1 +:+ w2) with (String c (w1 +:+ w2)).
  cbn [all_space]. by rewrite IH, andb_assoc.
Qed.

(** A path without CR in it, with white space around it but not at its
    start, comes out of the translation as it went in, with white space
    around it. *)
Lemma translate_around (w1 path w2 : string) (after_cr : bool) :
  all_space w1 = true → all_space w2 = true →
  startswith_space path = false → contains CR path = false →
  ∃ w1' w2', all_space w1' = true ∧ all_space w2' = true ∧
    translate_scan after_cr (w1 +:+ path +:+ w2) = w1' +:+ path +:+ w2'.
Proof.
  intros Hw1 Hw2 Hstart Hcr. destruct path as [|p0 path].
  { exists (translate_scan after_cr (w1 +:+ w2)), "". split_and!; [|done|].
    - apply all_space_translate. by rewrite all_space_app, Hw1, Hw2.
    - by rewrite string_app_nil_r. }
  cbn [startswith_space] in Hstart.
  apply contains_cons_false in Hcr as [Hp0 Hcr].
  assert (Ascii.eqb p0 LF = false) as Hlf.
  { apply Ascii.eqb_neq. intros ->. done. }
  revert after_cr Hw1. induction w1 as [|c w1 IH]; intros after_cr Hw1.
  - exists "", (translate_scan false w2). split_and!; [done| |].
    + by apply all_space_translate.
    + change ("" +:+ String p0 path +:+ w2) with (String p0 (path +:+ w2)).
      cbn [translate_scan]. rewrite Hlf, andb_false_r, Hp0.
      by rewrite translate_no_CR.
  - cbn [all_space] in Hw1. apply andb_true_iff in Hw1 as [Hc Hw1].
    change (String c w1 +:+ String p0 path +:+ w2)
      with (String c (w1 +:+ String p0 path +:+ w2)).
    cbn [translate_scan].
    destruct (after_cr && Ascii.eqb c LF); [by apply IH|].
    destruct (Ascii.eqb c CR).
    + destruct (IH true Hw1) as (w1' & w2' & Hw1' & Hw2' & ->).
      by exists (String LF w1'), w2'.
    + destruct (IH false Hw1) as (w1' & w2' & Hw1' & Hw2' & ->).
      exists (String c w1'), w2'. split_and!; [|done..].
      cbn [all_space]. by rewrite Hc.
Qed.

(** X11. If the command printed a path, with white space before and after
    it but none at its ends, and neither NUL nor CR in it, the lines bind
    [GISBASE] to the path, leave the rest of the environment as it was,
    and add one entry at the end of [sys.path]: the path, a slash unless
    the path is empty or ends with one, and [etc/python]. *)
Theorem X11_set_up (w1 path w2 : string) (p : process) :
  all_space w1 = true → all_space w2 = true →
  trimmed path = true → contains NUL path = false → contains CR path = false →
  ∃ p', set_up (w1 +:+ path +:+ w2) p = SetUp p' ∧
    environ p' !! "GISBASE" = Some path ∧
    (∀ name, name ≠ "GISBASE" → environ p' !! name = environ p !! name) ∧
    sys_path p'
    = sys_path p
      ++ [path +:+ (if String.eqb path "" || endswith_sep path then "" else "/")
               +:+ "etc/python"].
Proof.
  intros Hw1 Hw2 Hpath Hnul Hcr. unfold set_up, translate_newlines. cbv zeta.
  destruct (translate_around w1 path w2 false) as (w1' & w2' & Hw1' & Hw2' & ->);
    [done..|by apply trimmed_inv in Hpath as [? _]|done|].
  rewrite (strip_around w1' path w2' Hw1' Hw2').
  rewrite (strip_trimmed path Hpath), Hnul.
  eexists. split; [done|]. cbn [environ sys_path].
  split_and!.
  - by rewrite lookup_insert_eq.
  - intros name Hname. by rewrite lookup_insert_ne.
  - do 2 f_equal. unfold os_path_join. cbn [foldl]. unfold join_step.
    cbn [startswith_sep]. change (Ascii.eqb "e" "/") with false.
    change (Ascii.eqb "p" "/") with false. cbn match.
    destruct (String.eqb path "" || endswith_sep path) eqn:Hsep.
    + assert (String.eqb (path +:+ "etc") "" || endswith_sep (path +:+ "etc")
              = false) as ->.
      { rewrite endswith_sep_app by done. cbn.
        apply orb_false_iff. split; [|done]. apply String.eqb_neq.
        by destruct path. }
      by rewrite !string_app_assoc.
    + assert (String.eqb (path +:+ "/" +:+ "etc") ""
              || endswith_sep (path +:+ "/" +:+ "etc") = false) as ->.
      { rewrite endswith_sep_app by done. cbn.
        apply orb_false_iff. split; [|done]. apply String.eqb_neq.
        by destruct path. }
      by rewrite !string_app_assoc.
Qed.

(** X11, on the path [/usr/lib/grass] printed with CR LF after it. *)
Lemma X11_witness :
  ∃ p', set_up ("/usr/lib/grass" +:+ String CR nl)
          (mkProcess ∅ ["/usr/lib/python3"])
        = SetUp p' ∧
    environ p' !! "GISBASE" = Some "/usr/lib/grass" ∧
    sys_path p' = ["/usr/lib/python3"; "/usr/lib/grass/etc/python"].
Proof.
  destruct (X11_set_up "" "/usr/lib/grass" (String CR nl)
              (mkProcess ∅ ["/usr/lib/python3"]))
    as (p' & Hp' & Henv & _ & Hpath); [reflexivity..|].
  exists p'. split_and!; [exact Hp'|exact Henv|exact Hpath].
Defined.

(** ** Quoted fields *)

Lemma parse_quoted_body (sep : ascii) (f : string) :
  ∀ fs buf rest,
    contains DQUOTE f = false → contains NUL f = false →
    (N.of_nat (String.length buf + String.length f) ≤ field_limit)%N →
    parse_line sep
      (mkReader IN_QUOTED_FIELD fs buf (N.of_nat (String.length buf)))
      (f +:+ rest)
    = parse_line sep
        (mkReader IN_QUOTED_FIELD fs (String.rev_app f buf)
           (N.of_nat (String.length buf + String.length f)))
        rest.
Proof.
  induction f as [|c f IH]; intros fs buf rest Hq Hn Hlim.
  - cbn [String.length String.rev_app]. by rewrite Nat.add_0_r.
  - apply contains_cons_false in Hq as [Hq1 Hq], Hn as [Hn1 Hn].
    change (String c f +:+ rest) with (String c (f +:+ rest)).
    cbn [parse_line String.length] in Hlim |- *. rewrite Hn1.
    assert ((field_limit <=? N.of_nat (String.length buf))%N = false) as Hlt
      by (apply N.leb_gt; lia).
    unfold parse_process_char, parse_add_char. cbn [state field_len fields field].
    rewrite Hn1, Hq1, Hlt. cbn [mbind result_bind String.rev_app].
    rewrite <-Nat2N.inj_succ.
    change (S (String.length buf)) with (String.length (String c buf)).
    rewrite IH; [|done|done|cbn [String.length]; lia].
    do 3 f_equal. cbn [String.length]. lia.
Qed.

Lemma rev_rev_app_nil (f : string) : String.rev (String.rev_app f "") = f.
Proof. by rewrite rev_app_rev. Qed.

(** A quoted field, from its opening quote to its closing one. *)
Lemma parse_quoted_step (sep : ascii) (f rest : string) (fs0 : list string) :
  contains DQUOTE f = false → contains NUL f = false →
  within_limit f = true →
  parse_line sep (mkReader START_FIELD fs0 "" 0)
             (quoted f +:+ rest)
  = parse_line sep (mkReader QUOTE_IN_QUOTED_FIELD fs0 (String.rev_app f "")
                      (N.of_nat (String.length f))) rest.
Proof.
  intros Hq Hn Hlim. apply N.leb_le in Hlim.
  unfold quoted.
  change (String DQUOTE (f +:+ String DQUOTE "") +:+ rest)
    with (String DQUOTE ((f +:+ String DQUOTE "") +:+ rest)).
  rewrite string_app_assoc.
  change (String DQUOTE "" +:+ rest) with (String DQUOTE rest).
  cbn [parse_line]. change (Ascii.eqb DQUOTE NUL) with false. cbn match.
  assert (parse_process_char sep (mkReader START_FIELD fs0 "" 0) DQUOTE
          = Ok (mkReader IN_QUOTED_FIELD fs0 "" (N.of_nat (String.length ""))))
    as -> by done.
  cbn [mbind result_bind].
  rewrite parse_quoted_body by done.
  cbn [parse_line]. change (Ascii.eqb DQUOTE NUL) with false. cbn match.
  cbn [String.length Nat.add].
  assert (∀ b, parse_process_char sep
            (mkReader IN_QUOTED_FIELD fs0 b (N.of_nat (String.length f))) DQUOTE
          = Ok (mkReader QUOTE_IN_QUOTED_FIELD fs0 b (N.of_nat (String.length f))))
    as -> by done.
  done.
Qed.

Lemma parse_quote_end (sep : ascii) (fs0 : list string) (b : string) (n : N) :
  sep ≠ NUL →
  parse_line sep (mkReader QUOTE_IN_QUOTED_FIELD fs0 b n) ""
  = Ok (mkReader START_RECORD (fs0 ++ [String.rev b]) "" 0).
Proof.
  intros Hsep. assert (Ascii.eqb NUL sep = false) as Hns by (by apply Ascii.eqb_neq).
  cbn [parse_line]. unfold parse_process_char. cbn [state].
  change (Ascii.eqb NUL DQUOTE) with false. cbn match. by rewrite Hns.
Qed.

Lemma parse_quote_delimiter (sep : ascii) (fs0 : list string) (b rest : string) (n : N) :
  sep ≠ NUL → sep ≠ DQUOTE →
  parse_line sep (mkReader QUOTE_IN_QUOTED_FIELD fs0 b n) (String sep rest)
  = parse_line sep (mkReader START_FIELD (fs0 ++ [String.rev b]) "" 0) rest.
Proof.
  intros Hsep Hsepq.
  assert (Ascii.eqb sep NUL = false) as Hsn by (by apply Ascii.eqb_neq).
  assert (Ascii.eqb sep DQUOTE = false) as Hsq by (by apply Ascii.eqb_neq).
  cbn [parse_line]. rewrite Hsn. unfold parse_process_char at 1. cbn [state].
  by rewrite Hsq, Ascii.eqb_refl.
Qed.

Lemma join_cons (sep : ascii) (a b : string) (l : list string) :
  join sep (a :: b :: l) = a +:+ String sep (join sep (b :: l)).
Proof. done. Qed.

Lemma parse_quoted_fields (sep : ascii) (fs : list string) :
  sep ≠ NUL → sep ≠ DQUOTE →
  ∀ f fs0,
    forallb (λ f, negb (contains DQUOTE f) && negb (contains NUL f)
                  && within_limit f) (f :: fs) = true →
    parse_line sep (mkReader START_FIELD fs0 "" 0)
               (join sep (quoted <$> f :: fs))
    = Ok (mkReader START_RECORD (fs0 ++ f :: fs) "" 0).
Proof.
  intros Hsep Hsepq.
  induction fs as [|f' fs IH]; intros f fs0 Hall;
    cbn [forallb] in Hall; apply andb_true_iff in Hall as [Hf Hall];
    apply andb_true_iff in Hf as [Hf Hlim];
    apply andb_true_iff in Hf as [Hq Hn];
    apply negb_true_iff in Hq, Hn.
  - change (join sep (quoted <$> [f])) with (quoted f).
    rewrite <-(string_app_nil_r (quoted f)).
    rewrite parse_quoted_step by done.
    rewrite parse_quote_end by done. by rewrite rev_rev_app_nil.
  - rewrite !fmap_cons, join_cons.
    rewrite parse_quoted_step by done.
    rewrite parse_quote_delimiter by done. rewrite rev_rev_app_nil.
    rewrite <-fmap_cons.
    rewrite (IH f' (fs0 ++ [f])) by done.
    by rewrite <-(assoc_L (++)).
Qed.

(** X12. A line whose fields are all written between quote characters is
    read as one record of those fields, whatever they hold between the
    quotes, the delimiter included, as long as they hold no quote character
    and no NUL and are within the field size limit. *)
Theorem X12_quoted_fields (sep : ascii) (f : string) (fs : list string) :
  sep ≠ NUL → sep ≠ DQUOTE →
  forallb (λ f, negb (contains DQUOTE f) && negb (contains NUL f)
                && within_limit f) (f :: fs) = true →
  csv_reader sep [join sep (quoted <$> f :: fs)]
  = Ok (Yield (f :: fs) StopIteration).
Proof.
  intros Hsep Hsepq Hall. unfold csv_reader.
  destruct (Ascii.eqb_spec sep NUL) as [|_]; [done|]. f_equal.
  cbn [Reader_iter].
  assert (parse_line sep (parse_reset new_reader) (join sep (quoted <$> f :: fs))
          = Ok (mkReader START_RECORD (f :: fs) "" 0)) as ->; [|done].
  change (f :: fs) with ([] ++ f :: fs) at 2.
  rewrite <-(parse_quoted_fields sep fs Hsep Hsepq f [] Hall).
  destruct fs; reflexivity.
Qed.

(** X12, on a zone whose name holds the delimiter. *)
Lemma X12_witness :
  csv_reader "|" [quoted "north|west" +:+ "|" +:+ quoted "12.5"]
  = Ok (Yield ["north|west"; "12.5"] StopIteration) ∧
  (aggregate "|" (unlines nl [quoted "zone" +:+ "|" +:+ quoted "mean";
                              quoted "north|west" +:+ "|" +:+ quoted "12.5"])).1
  = {[ Some "zone" := [VStr "north|west"]; Some "mean" := [VStr "12.5"] ]}.
Proof.
  split; [|vm_compute; reflexivity].
  apply (X12_quoted_fields "|" "north|west" ["12.5"]); [done|done|reflexivity].
Defined.

(** ** A failed conversion *)

(** X13. When the table is built but some [mean] value does not parse, the
    cell ends with the [ValueError] of the first such value after binding
    [watersheds] to the new [zone] column, while [means] and [stddevs] keep
    what they held before the cell ran; [stddev] is not looked up. *)
Theorem X13_failed_conversion_keeps_old_means {float32 : Type} (nan : float32)
    (float : string → option float32) (sep : ascii) (text s : string)
    (k : @kernel float32) :
  (aggregate sep text).2 = None →
  VStr s ∈ column (aggregate sep text).1 (Some "mean") → float s = None →
  ∃ pre s' post,
    column (aggregate sep text).1 (Some "mean") = pre ++ VStr s' :: post ∧
    float s' = None ∧
    Forall (λ v, ∀ x, v = VStr x → is_Some (float x)) pre ∧
    cell nan float sep text k
    = (mkKernel (looked_up ["zone"; "mean"] (aggregate sep text).1)
                (column (aggregate sep text).1 (Some "zone"))
                (means k) (stddevs k),
       Some (ValueError_could_not_convert_string_to_float s')).
Proof.
  intros Hnone Hin Hs.
  destruct (convert_items_Err nan float _ s
              (column_named_flat sep text "mean") Hin Hs)
    as (pre & s' & post & Hcol & Hs' & Hpre & Herr).
  exists pre, s', post. split_and!; try done.
  rewrite cell_spec, Hnone, conversion_spec. cbn [columns means stddevs].
  unfold np_array_float32 at 1. by rewrite column_named_flat, Herr.
Qed.

(** X13, on a second run of the cell, whose text has [abc] for a mean. *)
Lemma X13_witness :
  let text := unlines nl ["zone|mean|stddev"; "7|abc|3.2"] in
  let before := mkKernel ∅ [VStr "1"; VStr "2"]
                  [Decimal.Lit "12.5"; Decimal.Lit "8.0"] [] in
  let run := cell Decimal.NaN Decimal.float "|" text before in
  run.2 = Some (ValueError_could_not_convert_string_to_float "abc") ∧
  watersheds run.1 = [VStr "7"] ∧
  means run.1 = [Decimal.Lit "12.5"; Decimal.Lit "8.0"].
Proof.
  cbv zeta.
  destruct (X13_failed_conversion_keeps_old_means Decimal.NaN Decimal.float "|"
              (unlines nl ["zone|mean|stddev"; "7|abc|3.2"]) "abc"
              (mkKernel ∅ [VStr "1"; VStr "2"]
                 [Decimal.Lit "12.5"; Decimal.Lit "8.0"] []))
    as (pre & s' & post & _ & _ & _ & Hcell);
    [reflexivity|compute_done|reflexivity|].
  split_and!; vm_compute; reflexivity.
Defined.

(** ** Quote characters inside a field *)

(** X14. A quote character that is not the first character of a field is
    an ordinary character: a line without NUL, no field of which begins
    with a quote or is over the field size limit, is read as the record of
    the pieces between its delimiters, quotes included. *)
Theorem X14_inner_quotes_are_ordinary (sep : ascii) (line : string) :
  sep ≠ NUL → sep ≠ DQUOTE → line ≠ "" →
  contains NUL line = false → has_linebreak line = false →
  forallb (λ f, negb (starts_with_quote f) && within_limit f) (split sep line)
  = true →
  csv_reader sep [line] = Ok (Yield (split sep line) StopIteration).
Proof.
  intros Hsep Hsepq Hne Hn Hbr Hall. unfold csv_reader.
  destruct (Ascii.eqb_spec sep NUL) as [|_]; [done|]. f_equal.
  assert (contains LF line = false ∧ contains CR line = false) as [Hl Hc].
  { clear -Hbr. induction line as [|c line IH]; [done|].
    cbn [has_linebreak] in Hbr. apply orb_false_iff in Hbr as [Hc Hbr].
    destruct (IH Hbr) as [IH1 IH2]. cbn [contains]. rewrite IH1, IH2.
    split; apply orb_false_iff; (split; [|done]); apply Ascii.eqb_neq;
      by intros ->. }
  assert (forallb (λ f, negb (starts_with_quote f)) (split sep line) = true
          ∧ forallb within_limit (split sep line) = true) as [Hq Hlim].
  { clear -Hall. induction (split sep line) as [|f l IH]; [done|].
    cbn [forallb] in Hall |- *.
    apply andb_true_iff in Hall as [[H1 H2]%andb_true_iff Hall].
    destruct (IH Hall) as [-> ->]. by rewrite H1, H2. }
  destruct (split_cons sep line) as (f & r & Hs).
  rewrite Hs in Hq, Hlim |- *. cbn [forallb] in Hq, Hlim.
  apply andb_true_iff in Hq as [Hq Hqr], Hlim as [Hf Hr].
  apply negb_true_iff in Hq. apply N.leb_le in Hf.
  cbn [Reader_iter].
  assert (parse_line sep (parse_reset new_reader) line
          = Ok (mkReader START_RECORD (f :: r) "" 0)) as ->; [|done].
  change (f :: r) with ([] ++ (String.rev "" +:+ f) :: r).
  rewrite <-(parse_line_inner_quotes sep line Hsepq START_FIELD [] "" f r);
    auto.
  destruct line as [|c line]; [done|].
  apply contains_cons_false in Hn as [Hn1 _], Hl as [Hl1 _], Hc as [Hc1 _].
  cbn [parse_line]. rewrite Hn1.
  unfold parse_process_char at 1. unfold parse_reset, new_reader.
  cbn [state]. by rewrite Hn1, Hl1, Hc1.
Qed.

(** X14, on a line that holds a length in inches. *)
Lemma X14_witness :
  let line := "pipe 5" +:+ String DQUOTE "|12.5" in
  csv_reader "|" [line] = Ok (Yield ["pipe 5" +:+ String DQUOTE ""; "12.5"] StopIteration).
Proof.
  cbv zeta.
  apply (X14_inner_quotes_are_ordinary "|" ("pipe 5" +:+ String DQUOTE "|12.5"));
    [done|done|done|reflexivity..].
Defined.
